(** * custom-check.py: the watchdog's template health check

    A shallow embedding of [src/Emistr.Watchdog/scripts/custom-check.py]
    and the properties of its aggregation policy and of its two renderings.

    Python values are embedded as they are at run time: a [str] is its
    sequence of code points, a [dict] literal is an association list in
    insertion order (the order [json.dumps] and iteration follow), and
    operations that can raise do so in an outcome type.  The process
    environment, the clock, the standard output and what its encoding holds
    are fields of an explicit world that the program's operations thread
    through. *)

From Stdlib Require Import NArith ZArith String Ascii List Lia Bool.
From stdpp Require Import base option list gmap.
Import ListNotations.

Local Open Scope list_scope.
#[local] Set Warnings "-register-all".

(** ** Python strings *)

(** A [str] is a sequence of Unicode code points. *)
Abbreviation pystr := (list N).

(** An ASCII literal of the source, as a [str]. *)
Definition lit (s : string) : pystr :=
  List.map N_of_ascii (list_ascii_of_string s).

Fixpoint str_eqb (a b : pystr) : bool :=
  match a, b with
  | [], [] => true
  | x :: a', y :: b' => N.eqb x y && str_eqb a' b'
  | _, _ => false
  end.

(** ** Python values *)

(** The values the script builds and the ones [json.loads] gives back for
    the text it prints: [None], [bool], [str], [list] and [dict] with [str]
    keys.  The script stores no number in its result. *)
Inductive pyval : Type :=
  | PNone
  | PBool (b : bool)
  | PStr (s : pystr)
  | PList (items : list pyval)
  | PDict (items : list (pystr * pyval)).

Abbreviation dict := (list (pystr * pyval)).

Inductive exception : Type :=
  | KeyError (key : pystr)
  | TypeError
  | AttributeError
  | UnicodeEncodeError.

(** What evaluating a piece of Python ends in: a value, a raised exception,
    [sys.exit(code)], or a construct this development leaves out. *)
Inductive outcome (A : Type) : Type :=
  | Return (a : A)
  | Raise (e : exception)
  | SystemExit (code : Z)
  | Unmodelled.

Arguments Return {A} a.
Arguments Raise {A} e.
Arguments SystemExit {A} code.
Arguments Unmodelled {A}.

#[global] Instance outcome_ret : MRet outcome := fun A a => Return a.
#[global] Instance outcome_bind : MBind outcome := fun A B f m =>
  match m with
  | Return a => f a
  | Raise e => Raise e
  | SystemExit c => SystemExit c
  | Unmodelled => Unmodelled
  end.

(** [bool(v)], the truth value [not v] and [if v] test. *)
Definition truthy (v : pyval) : bool :=
  match v with
  | PNone => false
  | PBool b => b
  | PStr s => negb (Nat.eqb (length s) 0)
  | PList l => negb (Nat.eqb (length l) 0)
  | PDict d => negb (Nat.eqb (length d) 0)
  end.

(** [v == s] for a [str] [s]: only an equal [str] compares equal. *)
Definition eq_str (v : pyval) (s : pystr) : bool :=
  match v with
  | PStr t => str_eqb t s
  | _ => false
  end.

(** ** Dictionaries *)

Fixpoint dict_lookup (k : pystr) (d : dict) : option pyval :=
  match d with
  | [] => None
  | (k', v) :: rest => if str_eqb k k' then Some v else dict_lookup k rest
  end.

(** [d[k]] *)
Definition dict_getitem (d : dict) (k : pystr) : outcome pyval :=
  match dict_lookup k d with
  | Some v => Return v
  | None => Raise (KeyError k)
  end.

(** [d.get(k)] *)
Definition dict_get (d : dict) (k : pystr) : pyval :=
  match dict_lookup k d with
  | Some v => v
  | None => PNone
  end.

(** [d[k] = v]: an existing key keeps its place, a new one goes last. *)
Fixpoint dict_setitem (d : dict) (k : pystr) (v : pyval) : dict :=
  match d with
  | [] => [(k, v)]
  | (k', v') :: rest =>
      if str_eqb k k' then (k', v) :: rest
      else (k', v') :: dict_setitem rest k v
  end.

Definition dict_keys (d : dict) : list pystr := List.map fst d.

(** [c[k]] for an arbitrary value [c] and a [str] key: only a [dict] can be
    subscripted by a [str]. *)
Definition getitem (c : pyval) (k : pystr) : outcome pyval :=
  match c with
  | PDict d => dict_getitem d k
  | _ => Raise TypeError
  end.

(** [for c in v]: the items of a list, the keys of a dict, the characters
    of a str. *)
Definition py_iter (v : pyval) : outcome (list pyval) :=
  match v with
  | PList l => Return l
  | PDict d => Return (List.map (fun kv => PStr (fst kv)) d)
  | PStr s => Return (List.map (fun c => PStr [c]) s)
  | PNone | PBool _ => Raise TypeError
  end.

(** [result["checks"].append(x)]: [append] exists on lists only. *)
Definition checks_append (result : dict) (x : pyval) : outcome dict :=
  checks ← dict_getitem result (lit "checks");
  match checks with
  | PList l => Return (dict_setitem result (lit "checks") (PList (l ++ [x])))
  | _ => Raise AttributeError
  end.

(** ** The world the script runs in *)

Record World : Type := mkWorld {
  environ : gmap pystr pystr;      (* os.environ *)
  utcnow_isoformat : pystr;        (* the text of datetime.utcnow().isoformat() *)
  stdout : pystr;                  (* the text printed so far *)
  stdout_encodes : N -> bool       (* the characters beyond ASCII that the
                                      encoding of sys.stdout holds *)
}.

Definition M (A : Type) : Type := World -> outcome A * World.

#[global] Instance M_ret : MRet M := fun A a w => (Return a, w).
#[global] Instance M_bind : MBind M := fun A B f m w =>
  match m w with
  | (Return a, w') => f a w'
  | (Raise e, w') => (Raise e, w')
  | (SystemExit c, w') => (SystemExit c, w')
  | (Unmodelled, w') => (Unmodelled, w')
  end.

Definition lift {A} (o : outcome A) : M A := fun w => (o, w).

(** [os.environ.get(key, default)] *)
Definition os_environ_get (key default : pystr) : M pystr :=
  fun w => (Return (match environ w !! key with
                    | Some v => v
                    | None => default
                    end), w).

(** [datetime.utcnow().isoformat()] *)
Definition datetime_utcnow_isoformat : M pystr :=
  fun w => (Return (utcnow_isoformat w), w).

(** The world after [text] went to the standard output. *)
Definition with_output (w : World) (text : pystr) : World :=
  mkWorld (environ w) (utcnow_isoformat w) (stdout w ++ text)
    (stdout_encodes w).

(** Whether [sys.stdout] takes the character [c].  Its encoding is one that
    Python gives a terminal, a pipe or a file (UTF-8, a Windows or ISO code
    page, ASCII): they all hold ASCII, and what they hold beyond it is the
    world's. *)
Definition encodable (w : World) (c : N) : bool :=
  (c <? 128)%N || stdout_encodes w c.

(** [print(s)] for a [str] [s]: [sys.stdout.write(s)], then the newline.  The
    stream encodes [s] whole before it writes any of it and raises
    [UnicodeEncodeError] at a character that its encoding does not hold.  The
    standard output is kept as the text written to it. *)
Definition print (s : pystr) : M unit :=
  fun w => if forallb (encodable w) s
           then (Return tt, with_output w (s ++ [10%N]))
           else (Raise UnicodeEncodeError, w).

(** [sys.exit(code)] *)
Definition sys_exit {A} (code : Z) : M A := fun w => (SystemExit code, w).

(** ** check_health *)

(** [[c for c in l if cond(c)]]: the condition is evaluated on every item in
    turn, and the first one that raises ends the comprehension. *)
Fixpoint comprehension (cond : pyval -> outcome bool) (l : list pyval)
    : outcome (list pyval) :=
  match l with
  | [] => Return []
  | c :: rest =>
      keep ← cond c;
      kept ← comprehension cond rest;
      Return (if (keep : bool) then c :: kept else kept)
  end.

(** [len(l)] *)
Definition len {A} (l : list A) : Z := Z.of_nat (length l).

(** [c.get("severity")] for an arbitrary value [c]: [get] exists on a dict. *)
Definition get_severity (c : pyval) : outcome pyval :=
  match c with
  | PDict d => Return (dict_get d (lit "severity"))
  | _ => Raise AttributeError
  end.

(** Line 58: [[c for c in result["checks"] if not c["ok"]]] *)
Definition failed_checks_of (checks : list pyval) : outcome (list pyval) :=
  comprehension
    (fun c => ok ← getitem c (lit "ok"); Return (negb (truthy ok))) checks.

(** Line 59:
    [len([c for c in failed_checks if c.get("severity") != "critical"])] *)
Definition warning_count_of (failed_checks : list pyval) : outcome Z :=
  kept ← comprehension
           (fun c => sev ← get_severity c;
                     Return (negb (eq_str sev (lit "critical"))))
           failed_checks;
  Return (len kept).

(** Line 60:
    [len([c for c in failed_checks if c.get("severity") == "critical"])] *)
Definition critical_count_of (failed_checks : list pyval) : outcome Z :=
  kept ← comprehension
           (fun c => sev ← get_severity c;
                     Return (eq_str sev (lit "critical")))
           failed_checks;
  Return (len kept).

(** Lines 57-70, "Determine overall status", on the [result] built so far. *)
Definition determine_overall_status (result : dict) : outcome (Z * dict) :=
  checks ← dict_getitem result (lit "checks");
  checks ← py_iter checks;
  failed_checks ← failed_checks_of checks;
  warning_count ← warning_count_of failed_checks;
  critical_count ← critical_count_of failed_checks;
  if (critical_count >? 0)%Z then
    Return (2%Z, dict_setitem result (lit "status") (PStr (lit "CRITICAL")))
  else if (warning_count >? 0)%Z then
    Return (1%Z, dict_setitem result (lit "status") (PStr (lit "WARNING")))
  else
    Return (0%Z, dict_setitem result (lit "status") (PStr (lit "OK"))).

Definition check_health (verbose : bool) : M (Z * dict) :=
  timestamp ← datetime_utcnow_isoformat;
  let result : dict :=
    [ (lit "timestamp", PStr timestamp);
      (lit "status", PStr (lit "OK"));
      (lit "checks", PList []) ] in
  (* Example check 1: Environment variable *)
  check_mode ← os_environ_get (lit "CHECK_MODE") (lit "default");
  result ← lift (checks_append result (PDict
    [ (lit "name", PStr (lit "Environment"));
      (lit "value", PStr check_mode);
      (lit "ok", PBool true) ]));
  (* Example check 2: Some custom logic *)
  let cpu_ok := true in
  result ← lift (checks_append result (PDict
    [ (lit "name", PStr (lit "CPU Usage"));
      (lit "value", PStr (lit "Normal"));
      (lit "ok", PBool cpu_ok) ]));
  (* Example check 3: External dependency *)
  let api_ok := true in
  result ← lift (checks_append result (PDict
    [ (lit "name", PStr (lit "External API"));
      (lit "value", PStr (lit "Reachable"));
      (lit "ok", PBool api_ok) ]));
  lift (determine_overall_status result).

(** ** json.dumps

    The encoder of CPython's [json] module with the options [json.dumps]
    passes by default: [ensure_ascii=True], separators [", "] and [": "]
    without [indent], [","] and [": "] with it.

    The encoder recurses once for every level of nesting, and the
    interpreter ends a recursion that goes beyond its limit (1000 frames
    unless it is raised) with [RecursionError].  The functions below have no
    such limit: they are the library's on the values that nest within it,
    the result of [check_health], three levels deep, among them. *)

Module Json.

Definition hex_digit (d : N) : N :=
  if (d <? 10)%N then (48 + d)%N else (87 + d)%N.

(** ['{0:04x}'.format(n)], used on [n < 0x10000] only: four digits. *)
Definition format_04x (n : N) : pystr :=
  [ hex_digit (n / 4096 mod 16); hex_digit (n / 256 mod 16);
    hex_digit (n / 16 mod 16); hex_digit (n mod 16) ]%N.

(** The replacement of one character: [ESCAPE_DCT], then the [\uXXXX]
    forms, a surrogate pair above the basic plane; characters from space
    to tilde other than the quote and the backslash stay. *)
Definition escape_char (c : N) : pystr :=
  if (c =? 92)%N then [92; 92]%N
  else if (c =? 34)%N then [92; 34]%N
  else if (c =? 8)%N then [92; 98]%N
  else if (c =? 12)%N then [92; 102]%N
  else if (c =? 10)%N then [92; 110]%N
  else if (c =? 13)%N then [92; 114]%N
  else if (c =? 9)%N then [92; 116]%N
  else if ((32 <=? c) && (c <=? 126))%N then [c]
  else if (c <? 0x10000)%N then 92%N :: 117%N :: format_04x c
  else
    let n := (c - 0x10000)%N in
    let s1 := N.lor 0xd800 (N.land (N.shiftr n 10) 0x3ff) in
    let s2 := N.lor 0xdc00 (N.land n 0x3ff) in
    (92%N :: 117%N :: format_04x s1) ++ (92%N :: 117%N :: format_04x s2).

Definition escape (s : pystr) : pystr := flat_map escape_char s.

(** [py_encode_basestring_ascii] *)
Definition encode_basestring_ascii (s : pystr) : pystr :=
  34%N :: escape s ++ [34%N].

Fixpoint join (sep : pystr) (parts : list pystr) : pystr :=
  match parts with
  | [] => []
  | [p] => p
  | p :: ps => p ++ sep ++ join sep ps
  end.

(** ['\n' + indent * level], nothing without [indent]. *)
Definition newline_indent (indent : option nat) (level : nat) : pystr :=
  match indent with
  | Some n => 10%N :: repeat 32%N (n * level)
  | None => []
  end.

Definition item_separator (indent : option nat) : pystr :=
  match indent with
  | Some _ => lit ","
  | None => lit ", "
  end.

Definition key_separator : pystr := lit ": ".

(** [_iterencode], its chunks concatenated. *)
Fixpoint iterencode (indent : option nat) (level : nat) (o : pyval) : pystr :=
  match o with
  | PNone => lit "null"
  | PBool true => lit "true"
  | PBool false => lit "false"
  | PStr s => encode_basestring_ascii s
  | PList [] => lit "[]"
  | PList lst =>
      lit "[" ++ newline_indent indent (S level)
        ++ join (item_separator indent ++ newline_indent indent (S level))
             (List.map (iterencode indent (S level)) lst)
        ++ newline_indent indent level ++ lit "]"
  | PDict [] => lit "{}"
  | PDict dct =>
      lit "{" ++ newline_indent indent (S level)
        ++ join (item_separator indent ++ newline_indent indent (S level))
             (List.map (fun kv =>
                          encode_basestring_ascii (fst kv) ++ key_separator
                            ++ iterencode indent (S level) (snd kv)) dct)
        ++ newline_indent indent level ++ lit "}"
  end.

(** [json.dumps(obj, indent=indent)] *)
Definition dumps (obj : pyval) (indent : option nat) : pystr :=
  iterencode indent 0 obj.

(** ** json.loads

    The decoder of CPython's [json] module ([py_scanstring], [JSONArray],
    [JSONObject], [scan_once]) on the values of [pyval].  Numbers, [NaN] and
    [Infinity] have no counterpart in [pyval]: a text that holds one is not
    decoded here.  [None] stands for [JSONDecodeError].  The recursion of
    [scan_once] through nested containers runs on fuel.  Like the encoder, the library's decoder
    ends with [RecursionError] on a text that nests beyond the interpreter's
    limit; the fuel here is the length of the text, which the texts of such
    values never use up. *)

Definition is_whitespace (c : N) : bool :=
  ((c =? 32) || (c =? 9) || (c =? 10) || (c =? 13))%N.

Fixpoint skip_whitespace (s : pystr) : pystr :=
  match s with
  | c :: rest => if is_whitespace c then skip_whitespace rest else s
  | [] => []
  end.

Definition hex_value (c : N) : option N :=
  if ((48 <=? c) && (c <=? 57))%N then Some (c - 48)%N
  else if ((97 <=? c) && (c <=? 102))%N then Some (c - 87)%N
  else if ((65 <=? c) && (c <=? 70))%N then Some (c - 55)%N
  else None.

(** [_decode_uXXXX] on the four characters after [\u]. *)
Definition decode_uXXXX (h1 h2 h3 h4 : N) : option N :=
  a ← hex_value h1; b ← hex_value h2; c ← hex_value h3; d ← hex_value h4;
  Some (((a * 16 + b) * 16 + c) * 16 + d)%N.

(** The table [BACKSLASH]. *)
Definition backslash (esc : N) : option N :=
  if (esc =? 34)%N then Some 34%N
  else if (esc =? 92)%N then Some 92%N
  else if (esc =? 47)%N then Some 47%N
  else if (esc =? 98)%N then Some 8%N
  else if (esc =? 102)%N then Some 12%N
  else if (esc =? 110)%N then Some 10%N
  else if (esc =? 114)%N then Some 13%N
  else if (esc =? 116)%N then Some 9%N
  else None.

Definition is_high_surrogate (u : N) : bool := ((0xd800 <=? u) && (u <=? 0xdbff))%N.
Definition is_low_surrogate (u : N) : bool := ((0xdc00 <=? u) && (u <=? 0xdfff))%N.

Definition combine_surrogates (uni uni2 : N) : N :=
  (0x10000 + N.lor (N.shiftl (uni - 0xd800) 10) (uni2 - 0xdc00))%N.

(** [py_scanstring] in strict mode, from the character after the opening
    quote: the decoded string and the text after the closing quote. *)
Fixpoint scanstring (s : pystr) : option (pystr * pystr) :=
  match s with
  | [] => None
  | c :: rest =>
      if (c =? 34)%N then Some ([], rest)
      else if (c =? 92)%N then
        match rest with
        | [] => None
        | esc :: rest1 =>
            if (esc =? 117)%N then
              match rest1 with
              | h1 :: h2 :: h3 :: h4 :: rest2 =>
                  match decode_uXXXX h1 h2 h3 h4 with
                  | None => None
                  | Some uni =>
                      let single :=
                        match scanstring rest2 with
                        | Some (t, r) => Some (uni :: t, r)
                        | None => None
                        end in
                      if is_high_surrogate uni then
                        match rest2 with
                        | b :: u :: rest3 =>
                            if ((b =? 92) && (u =? 117))%N then
                              match rest3 with
                              | g1 :: g2 :: g3 :: g4 :: rest4 =>
                                  match decode_uXXXX g1 g2 g3 g4 with
                                  | None => None
                                  | Some uni2 =>
                                      if is_low_surrogate uni2 then
                                        match scanstring rest4 with
                                        | Some (t, r) =>
                                            Some (combine_surrogates uni uni2 :: t, r)
                                        | None => None
                                        end
                                      else single
                                  end
                              | _ => None
                              end
                            else single
                        | _ => single
                        end
                      else single
                  end
              | _ => None
              end
            else
              match backslash esc with
              | Some ch =>
                  match scanstring rest1 with
                  | Some (t, r) => Some (ch :: t, r)
                  | None => None
                  end
              | None => None
              end
        end
      else if (c <? 32)%N then None
      else
        match scanstring rest with
        | Some (t, r) => Some (c :: t, r)
        | None => None
        end
  end.

(** [s] continues with the literal [word]: what follows it. *)
Fixpoint expect (word s : pystr) : option pystr :=
  match word, s with
  | [], _ => Some s
  | w :: word', c :: s' => if (w =? c)%N then expect word' s' else None
  | _ :: _, [] => None
  end.

(** [dict(pairs)]: a repeated key keeps its first place, its last value. *)
Definition dict_of_pairs (pairs : list (pystr * pyval)) : dict :=
  fold_left (fun d kv => dict_setitem d (fst kv) (snd kv)) pairs [].

Fixpoint scan_once (fuel : nat) (s : pystr) : option (pyval * pystr) :=
  match fuel with
  | O => None
  | S fuel' =>
      match s with
      | [] => None
      | c :: rest =>
          if (c =? 34)%N then
            '(str, r) ← scanstring rest; Some (PStr str, r)
          else if (c =? 123)%N then
            (* JSONObject *)
            match skip_whitespace rest with
            | c1 :: rest1 =>
                if (c1 =? 125)%N then Some (PDict [], rest1)
                else if (c1 =? 34)%N then
                  '(pairs, r) ← object_pairs fuel' rest1;
                  Some (PDict (dict_of_pairs pairs), r)
                else None
            | [] => None
            end
          else if (c =? 91)%N then
            (* JSONArray *)
            match skip_whitespace rest with
            | c1 :: rest1 =>
                if (c1 =? 93)%N then Some (PList [], rest1)
                else
                  '(values, r) ← array_values fuel' (c1 :: rest1);
                  Some (PList values, r)
            | [] => None
            end
          else if (c =? 110)%N then
            r ← expect (lit "ull") rest; Some (PNone, r)
          else if (c =? 116)%N then
            r ← expect (lit "rue") rest; Some (PBool true, r)
          else if (c =? 102)%N then
            r ← expect (lit "alse") rest; Some (PBool false, r)
          else None
      end
  end

(** The loop of [JSONArray], from the first character of a value. *)
with array_values (fuel : nat) (s : pystr) : option (list pyval * pystr) :=
  match fuel with
  | O => None
  | S fuel' =>
      '(value, r) ← scan_once fuel' s;
      match skip_whitespace r with
      | c :: rest =>
          if (c =? 93)%N then Some ([value], rest)
          else if (c =? 44)%N then
            '(values, r') ← array_values fuel' (skip_whitespace rest);
            Some (value :: values, r')
          else None
      | [] => None
      end
  end

(** The loop of [JSONObject], from the character after the quote that
    opens a key. *)
with object_pairs (fuel : nat) (s : pystr) : option (list (pystr * pyval) * pystr) :=
  match fuel with
  | O => None
  | S fuel' =>
      '(key, r) ← scanstring s;
      match skip_whitespace r with
      | colon :: r1 =>
          if (colon =? 58)%N then
            '(value, r2) ← scan_once fuel' (skip_whitespace r1);
            match skip_whitespace r2 with
            | c :: rest =>
                if (c =? 125)%N then Some ([(key, value)], rest)
                else if (c =? 44)%N then
                  match skip_whitespace rest with
                  | q :: rest' =>
                      if (q =? 34)%N then
                        '(pairs, r') ← object_pairs fuel' rest';
                        Some ((key, value) :: pairs, r')
                      else None
                  | [] => None
                  end
                else None
            | [] => None
            end
          else None
      | [] => None
      end
  end.

(** [json.loads(s)]: one value between optional whitespace, nothing after. *)
Definition loads (s : pystr) : option pyval :=
  '(obj, r) ← scan_once (length s) (skip_whitespace s);
  match skip_whitespace r with
  | [] => Some obj
  | _ :: _ => None
  end.

End Json.

(** ** main *)

(** The parsed command line: [args.verbose] and [args.json]. *)
Record Namespace : Type := mkNamespace {
  verbose : bool;
  json : bool
}.

(** [str(v)], as an f-string field applies it.  The text of a list or of a
    dict goes through [repr] and is left out. *)
Definition py_str (v : pyval) : outcome pystr :=
  match v with
  | PStr s => Return s
  | PNone => Return (lit "None")
  | PBool true => Return (lit "True")
  | PBool false => Return (lit "False")
  | PList _ | PDict _ => Unmodelled
  end.

Definition check_mark : pystr := [0x2713%N].
Definition cross_mark : pystr := [0x2717%N].

Fixpoint for_each {A} (l : list A) (body : A -> M unit) : M unit :=
  match l with
  | [] => mret tt
  | x :: rest => body x ≫= fun _ => for_each rest body
  end.

(** Lines 84-87: the human-readable rendering of one check. *)
Definition print_check (check : pyval) : M unit :=
  ok ← lift (getitem check (lit "ok"));
  let status := if truthy ok then check_mark else cross_mark in
  name ← lift (getitem check (lit "name") ≫= py_str);
  value ← lift (getitem check (lit "value") ≫= py_str);
  print (lit "  " ++ status ++ lit " " ++ name ++ lit ": " ++ value).

(** Lines 81-87: the rendering of a result. *)
Definition render (args : Namespace) (result : dict) : M unit :=
  if json args then
    print (Json.dumps (PDict result) (if verbose args then Some 2 else None))
  else
    status ← lift (dict_getitem result (lit "status") ≫= py_str);
    _ ← print (lit "Status: " ++ status);
    checks ← lift (dict_getitem result (lit "checks") ≫= py_iter);
    for_each checks print_check.

(** Lines 79-89 of [main], from the parsed arguments on (lines 74-77 hand
    the command line to [argparse], which gives [args]), with [check] for the
    function that the global name [check_health] is bound to when line 79
    runs. *)
Definition main_with (check : bool -> M (Z * dict)) (args : Namespace)
    : M unit :=
  '(exit_code, result) ← check (verbose args);
  _ ← render args result;
  sys_exit exit_code.

(** [main] as the script runs it: [check_health] is the function of lines
    15-70. *)
Definition main (args : Namespace) : M unit := main_with check_health args.


(** * Vocabulary of the properties *)

(** ** What check_health returns *)

Definition environment_check (check_mode : pystr) : pyval :=
  PDict [ (lit "name", PStr (lit "Environment"));
          (lit "value", PStr check_mode);
          (lit "ok", PBool true) ].

Definition cpu_check : pyval :=
  PDict [ (lit "name", PStr (lit "CPU Usage"));
          (lit "value", PStr (lit "Normal"));
          (lit "ok", PBool true) ].

Definition api_check : pyval :=
  PDict [ (lit "name", PStr (lit "External API"));
          (lit "value", PStr (lit "Reachable"));
          (lit "ok", PBool true) ].

(** The value of [CHECK_MODE] in the environment, ["default"] without it. *)
Definition check_mode_of (w : World) : pystr :=
  match environ w !! lit "CHECK_MODE" with
  | Some v => v
  | None => lit "default"
  end.

Definition ok_result (timestamp check_mode : pystr) : dict :=
  [ (lit "timestamp", PStr timestamp);
    (lit "status", PStr (lit "OK"));
    (lit "checks",
     PList [environment_check check_mode; cpu_check; api_check]) ].

(** ** Check entries *)

(** A check entry whose [ok] field is a boolean. *)
Definition has_ok_flag (c : pyval) : Prop :=
  exists d b, c = PDict d /\ dict_lookup (lit "ok") d = Some (PBool b).

(** A check entry with [ok = false]. *)
Definition failing (c : pyval) : Prop :=
  exists d, c = PDict d /\ dict_lookup (lit "ok") d = Some (PBool false).

(** A check entry with [ok = false] and [severity = "critical"]. *)
Definition critical_failure (c : pyval) : Prop :=
  exists d, c = PDict d /\ dict_lookup (lit "ok") d = Some (PBool false)
            /\ dict_lookup (lit "severity") d = Some (PStr (lit "critical")).

Definition status_of (result : dict) : option pyval :=
  dict_lookup (lit "status") result.

(** The entry carries this name. *)
Definition named (name : pystr) (c : pyval) : bool :=
  match getitem c (lit "name") with
  | Return v => eq_str v name
  | _ => false
  end.

(** A result with one passing entry, one failing without severity and one
    failing as critical. *)
Definition sample_checks : list pyval :=
  [ PDict [ (lit "name", PStr (lit "disk")); (lit "value", PStr (lit "41%"));
            (lit "ok", PBool true) ];
    PDict [ (lit "name", PStr (lit "load")); (lit "value", PStr (lit "high"));
            (lit "ok", PBool false) ];
    PDict [ (lit "name", PStr (lit "db")); (lit "value", PStr (lit "down"));
            (lit "ok", PBool false);
            (lit "severity", PStr (lit "critical")) ] ].

Definition sample_result : dict :=
  [ (lit "timestamp", PStr (lit "2024-01-02T03:04:05"));
    (lit "status", PStr (lit "CRITICAL"));
    (lit "checks", PList sample_checks) ].

(** What three encodings hold beyond ASCII: UTF-8 every character but the
    surrogates, Latin-1 the characters below 256, ASCII none. *)
Definition utf8 (c : N) : bool := negb ((0xD800 <=? c) && (c <=? 0xDFFF))%N.
Definition latin1 (c : N) : bool := (c <? 256)%N.
Definition ascii_only (c : N) : bool := false.

(** Two worlds that agree on [CHECK_MODE] and on the clock and on nothing
    else. *)
Definition sample_world : World :=
  mkWorld (<[lit "CHECK_MODE" := lit "prod"]> (<[lit "PATH" := lit "/bin"]> ∅))
    (lit "2024-01-02T03:04:05.000006") (lit "earlier output") utf8.

Definition other_world : World :=
  mkWorld (<[lit "CHECK_MODE" := lit "prod"]> (<[lit "HOME" := lit "/root"]> ∅))
    (lit "2024-01-02T03:04:05.000006") [] latin1.

(** A world whose standard output holds ASCII only, as with
    [PYTHONIOENCODING=ascii] or in the C locale of an older interpreter. *)
Definition ascii_world : World :=
  mkWorld ∅ (lit "2024-01-02T03:04:05.000006") [] ascii_only.


(** ** The human-readable rendering *)

(** Lines, each ended by a newline. *)
Definition unlines (lines : list pystr) : pystr :=
  flat_map (fun l => l ++ [10%N]) lines.

(** The lines of a text: what stands between its newlines. *)
Fixpoint split_lines (text : pystr) : list pystr :=
  match text with
  | [] => []
  | c :: rest =>
      if (c =? 10)%N then [] :: split_lines rest
      else match split_lines rest with
           | [] => [[c]]
           | l :: ls => (c :: l) :: ls
           end
  end.

(** The standard output of [w] takes every character of [s]. *)
Definition encodes (w : World) (s : pystr) : Prop :=
  forallb (encodable w) s = true.

(** The line of one check: the glyph, the name, the value. *)
Definition check_line (name value : pystr) (ok : bool) : pystr :=
  lit "  " ++ (if ok then check_mark else cross_mark) ++ lit " "
    ++ name ++ lit ": " ++ value.

(** [check] is an entry with text fields [name] and [value] and a boolean
    [ok], and [line] is its line. *)
Definition renders_as (check : pyval) (line : pystr) : Prop :=
  exists d name value ok,
    check = PDict d /\
    dict_lookup (lit "name") d = Some (PStr name) /\
    dict_lookup (lit "value") d = Some (PStr value) /\
    dict_lookup (lit "ok") d = Some (PBool ok) /\
    line = check_line name value ok.


Definition sample_lines : list pystr :=
  [ lit "  " ++ check_mark ++ lit " disk: 41%";
    lit "  " ++ cross_mark ++ lit " load: high";
    lit "  " ++ cross_mark ++ lit " db: down" ].

(** ** The JSON rendering *)

Definition quoted (s : pystr) : pystr := 34%N :: s ++ [34%N].

(** A character from space to tilde: no newline, no control character. *)
Definition printable (c : N) : Prop := (32 <= c <= 126)%N.

Definition printableb (c : N) : bool := ((32 <=? c) && (c <=? 126))%N.



(** ** Decoding what the encoder wrote *)

(** The two halves [s1], [s2] that [escape_char] writes for a character
    above the basic plane. *)
Definition high_half (c : N) : N :=
  N.lor 0xd800 (N.land (N.shiftr (c - 0x10000) 10) 0x3ff).

Definition low_half (c : N) : N :=
  N.lor 0xdc00 (N.land (c - 0x10000) 0x3ff).

(** What the decoder gives back for the escape of one character. *)
Definition decoded_char (c : N) : N :=
  if (c <? 0x10000)%N then c
  else Json.combine_surrogates (high_half c) (low_half c).

(** What the decoder gives back for the escape of a string: a high
    surrogate followed by a low one comes back as the one character the two
    encode. *)
Fixpoint unescaped (s : pystr) : pystr :=
  match s with
  | [] => []
  | c :: s' =>
      match s' with
      | c2 :: s'' =>
          if Json.is_high_surrogate c && Json.is_low_surrogate c2
          then Json.combine_surrogates c c2 :: unescaped s''
          else decoded_char c :: unescaped s'
      | [] => [decoded_char c]
      end
  end.

(** A string of code points below 0x110000, none of them a high surrogate:
    Unicode text, and the lone low surrogates that [os.environ] makes of
    undecodable bytes. *)
Definition well_formed_text (s : pystr) : Prop :=
  Forall (fun c => (c < 0x110000)%N /\ Json.is_high_surrogate c = false) s.

(** The decoder goes on after one decoded character. *)
Definition single (uni : N) (X : pystr) : option (pystr * pystr) :=
  match Json.scanstring X with
  | Some (t, r) => Some (uni :: t, r)
  | None => None
  end.

(** How [escape_char] writes a character. *)
Inductive escape_shape (c : N) : pystr -> Prop :=
  | shape_plain :
      c <> 34%N -> c <> 92%N -> (32 <= c)%N -> (c <= 126)%N ->
      escape_shape c [c]
  | shape_short esc :
      Json.backslash esc = Some c -> esc <> 117%N -> (c < 128)%N ->
      escape_shape c [92%N; esc]
  | shape_u :
      (c < 0x10000)%N -> escape_shape c (92%N :: 117%N :: Json.format_04x c)
  | shape_pair :
      (0x10000 <= c)%N ->
      escape_shape c ((92%N :: 117%N :: Json.format_04x (high_half c))
                        ++ (92%N :: 117%N :: Json.format_04x (low_half c))).

(** What [json.loads] gives back for the text of a value. *)
Fixpoint decoded (v : pyval) : pyval :=
  match v with
  | PNone => PNone
  | PBool b => PBool b
  | PStr s => PStr (unescaped s)
  | PList l => PList (List.map decoded l)
  | PDict d =>
      PDict (Json.dict_of_pairs
               (List.map (fun kv => (unescaped (fst kv), decoded (snd kv))) d))
  end.

(** Fuel that is enough to decode the text of a value. *)
Fixpoint weight (v : pyval) : nat :=
  match v with
  | PList l => S (list_sum (List.map weight l) + length l)
  | PDict d => S (list_sum (List.map (fun kv => weight (snd kv)) d) + length d)
  | _ => 1
  end.

(** [text] decodes to [v] with fuel [f] or more, whatever follows it. *)
Definition decodes (f : nat) (text : pystr) (v : pyval) : Prop :=
  forall g rest, f <= g -> Json.scan_once g (text ++ rest) = Some (v, rest).

(** Whitespace only. *)
Definition blank (w : pystr) : Prop :=
  Forall (fun c => Json.is_whitespace c = true) w.

(** The text of one member of an object. *)
Definition member_text (indent : option nat) (level : nat)
    (kv : pystr * pyval) : pystr :=
  Json.encode_basestring_ascii (fst kv) ++ Json.key_separator
    ++ Json.iterencode indent level (snd kv).

(** Induction on values, through the lists and dicts they nest in. *)
Section pyval_induction.
Variable P : pyval -> Prop.
Hypothesis HNone : P PNone.
Hypothesis HBool : forall b, P (PBool b).
Hypothesis HStr : forall s, P (PStr s).
Hypothesis HList : forall l, Forall P l -> P (PList l).
Hypothesis HDict : forall d, Forall (fun kv => P (snd kv)) d -> P (PDict d).

Fixpoint pyval_nested_ind (v : pyval) : P v :=
  match v with
  | PNone => HNone
  | PBool b => HBool b
  | PStr s => HStr s
  | PList l =>
      HList l ((fix go (l : list pyval) : Forall P l :=
                  match l with
                  | [] => @List.Forall_nil _ P
                  | x :: xs =>
                      @List.Forall_cons _ P x xs (pyval_nested_ind x) (go xs)
                  end) l)
  | PDict d =>
      HDict d ((fix go (d : dict) : Forall (fun kv => P (snd kv)) d :=
                  match d with
                  | [] => @List.Forall_nil _ (fun kv => P (snd kv))
                  | (k, x) :: xs =>
                      @List.Forall_cons _ (fun kv => P (snd kv)) (k, x) xs
                        (pyval_nested_ind x) (go xs)
                  end) d)
  end.
End pyval_induction.

(** ** Entries whose [ok] is of any type *)

(** An entry with an [ok] field, whatever its value. *)
Definition has_ok_key (c : pyval) : Prop :=
  exists d v, c = PDict d /\ dict_lookup (lit "ok") d = Some v.

(** An entry that [not c["ok"]] selects: its [ok] is [False], [None] or an
    empty string, list or dict. *)
Definition fails (c : pyval) : Prop :=
  exists d v, c = PDict d /\ dict_lookup (lit "ok") d = Some v
              /\ truthy v = false.

(** Such an entry with [severity] equal to the string "critical". *)
Definition fails_critically (c : pyval) : Prop :=
  exists d v, c = PDict d /\ dict_lookup (lit "ok") d = Some v
              /\ truthy v = false
              /\ dict_lookup (lit "severity") d = Some (PStr (lit "critical")).

(** The exception that [c["ok"]] raises, if it does. *)
Definition ok_lookup_error (c : pyval) : option exception :=
  match c with
  | PDict d =>
      match dict_lookup (lit "ok") d with
      | Some _ => None
      | None => Some (KeyError (lit "ok"))
      end
  | _ => Some TypeError
  end.

(** What lines 57-70 decide on the entries [checks]. *)
Definition decided (checks : list pyval) (code : Z) (status : pystr) : Prop :=
  (Exists fails_critically checks /\ code = 2%Z /\ status = lit "CRITICAL") \/
  (~ Exists fails_critically checks /\ Exists fails checks /\
   code = 1%Z /\ status = lit "WARNING") \/
  (~ Exists fails checks /\ code = 0%Z /\ status = lit "OK").

(** The entries that [for c in result["checks"]] goes through. *)
Definition iterated (result : dict) : outcome (list pyval) :=
  dict_getitem result (lit "checks") ≫= py_iter.

(** ** Lines of any result *)

(** [check] is an entry with text fields [name] and [value] and an [ok] of
    any type, and [line] is its line. *)
Definition renders_truthy (check : pyval) (line : pystr) : Prop :=
  exists d name value ok,
    check = PDict d /\
    dict_lookup (lit "name") d = Some (PStr name) /\
    dict_lookup (lit "value") d = Some (PStr value) /\
    dict_lookup (lit "ok") d = Some ok /\
    line = check_line name value (truthy ok).

(** A line that carries the check mark. *)
Definition check_marked (line : pystr) : Prop :=
  exists name value, line = check_line name value true.

(** A printable ASCII character or a newline. *)
Definition plain (c : N) : Prop := printable c \/ c = 10%N.

(** How deep the lists and dicts of a value nest. *)
Fixpoint depth (v : pyval) : nat :=
  match v with
  | PList l => S (fold_right (fun x acc => Nat.max (depth x) acc) 0 l)
  | PDict d => S (fold_right (fun kv acc => Nat.max (depth (snd kv)) acc) 0 d)
  | _ => 0
  end.

(** A value that nests well within the recursion limit of the interpreter,
    where [json.dumps] and [json.loads] are the functions of [Json]. *)
Definition shallow (v : pyval) : Prop := depth v <= 100.

(** ** Values that read back as they are *)

(** A value that [json.loads] gives back as it is: every string, keys
    included, is well-formed text, and no dict has a key twice. *)
Fixpoint well_formed (v : pyval) : Prop :=
  match v with
  | PNone | PBool _ => True
  | PStr s => well_formed_text s
  | PList l => fold_right (fun x acc => well_formed x /\ acc) True l
  | PDict d =>
      NoDup (dict_keys d) /\
      fold_right (fun kv acc =>
                    well_formed_text (fst kv) /\ well_formed (snd kv) /\ acc)
        True d
  end.

(** [well_formed_text], decided. *)
Definition well_formed_textb (s : pystr) : bool :=
  forallb (fun c => (c <? 0x110000)%N && negb (Json.is_high_surrogate c)) s.

(** ** More sample results *)

(** Entries whose [ok] is not a boolean: a text, [None], an empty list. *)
Definition loose_checks : list pyval :=
  [ PDict [ (lit "name", PStr (lit "disk")); (lit "value", PStr (lit "41%"));
            (lit "ok", PStr (lit "yes")) ];
    PDict [ (lit "name", PStr (lit "load")); (lit "value", PStr (lit "high"));
            (lit "ok", PNone) ];
    PDict [ (lit "name", PStr (lit "db")); (lit "value", PStr (lit "down"));
            (lit "ok", PList []);
            (lit "severity", PStr (lit "critical")) ] ].

Definition loose_result : dict :=
  [ (lit "status", PStr (lit "OK")); (lit "checks", PList loose_checks) ].

Definition loose_lines : list pystr :=
  [ check_line (lit "disk") (lit "41%") true;
    check_line (lit "load") (lit "high") false;
    check_line (lit "db") (lit "down") false ].

(** An entry without a [name]. *)
Definition nameless_check : pyval :=
  PDict [ (lit "value", PStr (lit "down")); (lit "ok", PBool false) ].

(** A result whose second entry has no [name]. *)
Definition nameless_result : dict :=
  [ (lit "status", PStr (lit "WARNING"));
    (lit "checks", PList (firstn 1 sample_checks ++ nameless_check
                            :: skipn 2 sample_checks)) ].

(** The first entry of [sample_checks] alone, the other two, and all three
    from the last to the first. *)
Definition head_result : dict :=
  [ (lit "checks", PList (firstn 1 sample_checks)) ].

Definition tail_result : dict :=
  [ (lit "checks", PList (skipn 1 sample_checks)) ].

Definition reversed_result : dict :=
  [ (lit "checks", PList (rev sample_checks)) ].

(** * Properties *)

(** ** Strings and dictionaries *)

Lemma str_eqb_eq (a b : pystr) : str_eqb a b = true <-> a = b.
Proof.
  revert b. induction a as [|x a IH]; intros [|y b]; simpl; split;
    try congruence; try done.
  - intros [Hxy Hab]%andb_true_iff. apply N.eqb_eq in Hxy.
    apply IH in Hab. congruence.
  - intros [= -> ->]. rewrite N.eqb_refl. simpl. by apply IH.
Qed.

Lemma str_eqb_refl (a : pystr) : str_eqb a a = true.
Proof. by apply str_eqb_eq. Qed.

Lemma dict_lookup_setitem_eq (d : dict) k v :
  dict_lookup k (dict_setitem d k v) = Some v.
Proof.
  induction d as [|[k' v'] d IH]; simpl.
  - by rewrite str_eqb_refl.
  - destruct (str_eqb k k') eqn:E; simpl; rewrite E; done.
Qed.

Lemma dict_lookup_setitem_ne (d : dict) k k' v :
  str_eqb k' k = false ->
  dict_lookup k' (dict_setitem d k v) = dict_lookup k' d.
Proof.
  intros Hne. induction d as [|[k0 v0] d IH]; simpl.
  - by rewrite Hne.
  - destruct (str_eqb k k0) eqn:E; simpl.
    + apply str_eqb_eq in E. subst k0. by rewrite Hne.
    + by rewrite IH.
Qed.

(** ** check_health on every world *)

Lemma check_health_eq (verbose : bool) (w : World) :
  check_health verbose w =
  (Return (0%Z, ok_result (utcnow_isoformat w) (check_mode_of w)), w).
Proof. reflexivity. Qed.

(** ** The aggregation policy *)

Lemma failed_checks_of_cons c rest :
  failed_checks_of (c :: rest) =
  (ok ← getitem c (lit "ok");
   failed ← failed_checks_of rest;
   Return (if truthy ok then failed else c :: failed)).
Proof.
  unfold failed_checks_of. simpl.
  destruct (getitem c (lit "ok")) as [ok| | |]; simpl; try done.
  destruct (comprehension _ rest); simpl; try done.
  by destruct (truthy ok).
Qed.

Lemma len_cons {A} (x : A) l : len (x :: l) = (1 + len l)%Z.
Proof. unfold len. simpl length. lia. Qed.

Lemma warning_count_of_cons c rest :
  warning_count_of (c :: rest) =
  (sev ← get_severity c;
   n ← warning_count_of rest;
   Return (if negb (eq_str sev (lit "critical")) then (1 + n)%Z else n)).
Proof.
  unfold warning_count_of. simpl.
  destruct (get_severity c) as [sev| | |]; simpl; try done.
  destruct (comprehension _ rest) as [kept| | |]; simpl; try done.
  destruct (eq_str sev (lit "critical")); simpl; by rewrite ?len_cons.
Qed.

Lemma critical_count_of_cons c rest :
  critical_count_of (c :: rest) =
  (sev ← get_severity c;
   n ← critical_count_of rest;
   Return (if eq_str sev (lit "critical") then (1 + n)%Z else n)).
Proof.
  unfold critical_count_of. simpl.
  destruct (get_severity c) as [sev| | |]; simpl; try done.
  destruct (comprehension _ rest) as [kept| | |]; simpl; try done.
  destruct (eq_str sev (lit "critical")); simpl; by rewrite ?len_cons.
Qed.

Lemma critical_failure_failing c : critical_failure c -> failing c.
Proof. intros (d & -> & Hok & _). by exists d. Qed.

Lemma eq_str_severity (d : dict) :
  eq_str (dict_get d (lit "severity")) (lit "critical") = true <->
  dict_lookup (lit "severity") d = Some (PStr (lit "critical")).
Proof.
  unfold dict_get. destruct (dict_lookup (lit "severity") d) as [[]|]; simpl;
    split; try congruence.
  - intros ->%str_eqb_eq. done.
  - intros [= ->]. apply str_eqb_refl.
Qed.

(** Only a dict gets through [c["ok"]]. *)
Lemma failed_checks_of_dicts checks failed :
  failed_checks_of checks = Return failed ->
  Forall (fun c => exists d, c = PDict d) failed.
Proof.
  revert failed. induction checks as [|c checks IH]; intros failed H.
  - injection H as <-. constructor.
  - rewrite failed_checks_of_cons in H.
    destruct c as [| | | |d]; simpl in H; try discriminate.
    unfold dict_getitem in H.
    destruct (dict_lookup (lit "ok") d) as [ok|]; simpl in H; [|discriminate].
    destruct (failed_checks_of checks) as [failed'| | |]; simpl in H;
      try discriminate.
    injection H as <-. specialize (IH _ eq_refl).
    destruct (truthy ok); [done|]. constructor; [by exists d|done].
Qed.

Lemma failed_checks_of_spec checks :
  Forall has_ok_flag checks ->
  exists failed,
    failed_checks_of checks = Return failed /\
    forall c, c ∈ failed <-> c ∈ checks /\ failing c.
Proof.
  induction 1 as [|c checks (d & b & -> & Hok) _ (failed & Hf & Hin)].
  - exists []. split; [done|]. intros c. rewrite !elem_of_nil. tauto.
  - rewrite failed_checks_of_cons. simpl. unfold dict_getitem.
    rewrite Hok. simpl. rewrite Hf. simpl.
    destruct b.
    + exists failed. split; [done|]. intros c. rewrite Hin, elem_of_cons.
      split; [tauto|]. intros [[->|?] Hc]; [|done].
      destruct Hc as (d' & [= <-] & Hd'). congruence.
    + exists (PDict d :: failed). split; [done|]. intros c.
      rewrite !elem_of_cons, Hin. split.
      * intros [->|[? ?]]; [|tauto]. split; [by left|by exists d].
      * intros [[->|?] ?]; tauto.
Qed.

(** The two counts split the failing entries: every one of them is counted
    once, as critical or as a warning. *)
Lemma counts_partition failed :
  Forall (fun c => exists d, c = PDict d) failed ->
  exists wc cc,
    warning_count_of failed = Return wc /\
    critical_count_of failed = Return cc /\
    (wc + cc = len failed)%Z /\ (0 <= wc)%Z /\ (0 <= cc)%Z.
Proof.
  induction 1 as [|c failed [d ->] _ (wc & cc & Hw & Hc & Hsum & ? & ?)].
  - exists 0%Z, 0%Z. repeat split; done.
  - rewrite warning_count_of_cons, critical_count_of_cons, len_cons.
    simpl. rewrite Hw, Hc. simpl.
    destruct (eq_str (dict_get d (lit "severity")) (lit "critical")); simpl.
    + exists wc, (1 + cc)%Z. repeat split; lia.
    + exists (1 + wc)%Z, cc. repeat split; lia.
Qed.

Lemma critical_count_nonneg failed n :
  critical_count_of failed = Return n -> (0 <= n)%Z.
Proof.
  unfold critical_count_of. destruct (comprehension _ failed); simpl;
    try discriminate.
  intros [= <-]. unfold len. lia.
Qed.

Lemma warning_count_nonneg failed n :
  warning_count_of failed = Return n -> (0 <= n)%Z.
Proof.
  unfold warning_count_of. destruct (comprehension _ failed); simpl;
    try discriminate.
  intros [= <-]. unfold len. lia.
Qed.

Lemma critical_count_pos failed cc :
  Forall failing failed ->
  critical_count_of failed = Return cc ->
  (0 < cc)%Z <-> Exists critical_failure failed.
Proof.
  intros Hall. revert cc.
  induction Hall as [|c failed (d & -> & Hok) Hall IH]; intros cc Hcc.
  - injection Hcc as <-. rewrite Exists_nil. done.
  - rewrite critical_count_of_cons in Hcc. simpl in Hcc.
    destruct (critical_count_of failed) as [n| | |] eqn:En; simpl in Hcc;
      try discriminate.
    injection Hcc as <-. specialize (IH _ eq_refl).
    pose proof (critical_count_nonneg _ _ En) as Hn.
    rewrite Exists_cons.
    destruct (eq_str _ _) eqn:E.
    + apply eq_str_severity in E. split; [|lia].
      intros _. left. by exists d.
    + rewrite IH. split; [tauto|]. intros [(d' & [= <-] & _ & Hsev)|?]; [|done].
      apply eq_str_severity in Hsev. congruence.
Qed.

Lemma warning_count_pos failed wc :
  Forall failing failed ->
  warning_count_of failed = Return wc ->
  (0 < wc)%Z <-> Exists (fun c => ~ critical_failure c) failed.
Proof.
  intros Hall. revert wc.
  induction Hall as [|c failed (d & -> & Hok) Hall IH]; intros wc Hwc.
  - injection Hwc as <-. rewrite Exists_nil. done.
  - rewrite warning_count_of_cons in Hwc. simpl in Hwc.
    destruct (warning_count_of failed) as [n| | |] eqn:En; simpl in Hwc;
      try discriminate.
    injection Hwc as <-. specialize (IH _ eq_refl).
    pose proof (warning_count_nonneg _ _ En) as Hn.
    rewrite Exists_cons.
    destruct (eq_str _ _) eqn:E; simpl.
    + apply eq_str_severity in E. rewrite IH. split; [tauto|].
      intros [Hnc|?]; [|done]. exfalso. apply Hnc. by exists d.
    + split; [|lia]. intros _. left. intros (d' & [= <-] & _ & Hsev).
      apply eq_str_severity in Hsev. congruence.
Qed.

(** The status and the code that lines 57-70 derive from the entries. *)
Lemma determine_overall_status_spec (result : dict) (checks : list pyval) :
  dict_lookup (lit "checks") result = Some (PList checks) ->
  Forall has_ok_flag checks ->
  exists code status,
    determine_overall_status result =
      Return (code, dict_setitem result (lit "status") (PStr status)) /\
    ((Exists critical_failure checks /\ code = 2%Z /\ status = lit "CRITICAL") \/
     (~ Exists critical_failure checks /\ Exists failing checks /\
      code = 1%Z /\ status = lit "WARNING") \/
     (~ Exists failing checks /\ code = 0%Z /\ status = lit "OK")).
Proof.
  intros Hchecks Hwf.
  destruct (failed_checks_of_spec checks Hwf) as (failed & Hf & Hin).
  assert (Forall failing failed) as Hfailing.
  { apply Forall_forall. intros c Hc. by apply Hin. }
  destruct (counts_partition failed) as (wc & cc & Hw & Hc & Hsum & Hwc & Hcc).
  { by eapply failed_checks_of_dicts. }
  pose proof (critical_count_pos _ _ Hfailing Hc) as Hcpos.
  pose proof (warning_count_pos _ _ Hfailing Hw) as Hwpos.
  assert (Exists critical_failure failed <-> Exists critical_failure checks)
    as Hcrit.
  { rewrite !Exists_exists. split; intros (c & Hc' & Hcf); exists c.
    - split; [by apply Hin|done].
    - split; [|done]. apply Hin. split; [done|].
      by apply critical_failure_failing. }
  unfold determine_overall_status, dict_getitem. rewrite Hchecks. simpl.
  rewrite Hf. simpl. rewrite Hw. simpl. rewrite Hc. simpl.
  destruct (Z.gtb_spec cc 0) as [Hpos|Hnpos].
  - exists 2%Z, (lit "CRITICAL"). split; [done|]. left.
    split; [|done]. apply Hcrit, Hcpos. lia.
  - assert (~ Exists critical_failure checks) as Hnocrit.
    { rewrite <- Hcrit, <- Hcpos. lia. }
    destruct (Z.gtb_spec wc 0) as [Hwpos'|Hwnpos].
    + exists 1%Z, (lit "WARNING"). split; [done|]. right. left.
      split; [done|]. split; [|done].
      assert (Exists (fun c => ~ critical_failure c) failed) as Hex.
      { apply Hwpos. lia. }
      apply Exists_exists in Hex as (c & Hc' & _).
      apply Exists_exists. exists c. by apply Hin.
    + exists 0%Z, (lit "OK"). split; [done|]. right. right.
      split; [|done]. intros Hex.
      apply Exists_exists in Hex as (c & Hc' & Hcf).
      assert (c ∈ failed) as Hcin by (by apply Hin).
      assert (length failed = 0%nat) as Hlen by (unfold len in Hsum; lia).
      destruct failed; [by apply elem_of_nil in Hcin|discriminate].
Qed.

Lemma sample_checks_flags : Forall has_ok_flag sample_checks.
Proof.
  repeat (apply List.Forall_cons; [eexists _, _; split; reflexivity|]).
  apply List.Forall_nil.
Defined.

(** ** Escapes: what the decoder makes of what the encoder wrote *)

Section escapes.
Local Open Scope N_scope.


Lemma hex_value_digit d : d < 16 -> Json.hex_value (Json.hex_digit d) = Some d.
Proof.
  intros Hd. unfold Json.hex_value, Json.hex_digit.
  destruct (N.ltb_spec d 10).
  - replace ((48 <=? 48 + d) && (48 + d <=? 57)) with true.
    + f_equal. lia.
    + symmetry. apply andb_true_iff. split; apply N.leb_le; lia.
  - replace ((48 <=? 87 + d) && (87 + d <=? 57)) with false.
    + replace ((97 <=? 87 + d) && (87 + d <=? 102)) with true.
      * f_equal. lia.
      * symmetry. apply andb_true_iff. split; apply N.leb_le; lia.
    + symmetry. apply andb_false_iff. right. apply N.leb_gt. lia.
Qed.

Lemma decode_format n :
  n < 0x10000 ->
  Json.decode_uXXXX (Json.hex_digit (n / 4096 mod 16))
    (Json.hex_digit (n / 256 mod 16)) (Json.hex_digit (n / 16 mod 16))
    (Json.hex_digit (n mod 16)) = Some n.
Proof.
  intros Hn. unfold Json.decode_uXXXX.
  rewrite !hex_value_digit by (apply N.mod_lt; lia). simpl.
  f_equal. zify. Z.to_euclidean_division_equations. lia.
Qed.

Lemma forall_below (P : N -> bool) (n : nat) :
  forallb P (List.map N.of_nat (seq 0 n)) = true ->
  forall x, x < N.of_nat n -> P x = true.
Proof.
  intros H x Hx. rewrite forallb_forall in H. apply H.
  apply in_map_iff. exists (N.to_nat x). split; [lia|].
  apply in_seq. lia.
Qed.

Lemma high_half_range c : Json.is_high_surrogate (high_half c) = true.
Proof.
  unfold high_half. change 0x3ff with (N.ones 10). rewrite N.land_ones.
  apply (forall_below (fun x => Json.is_high_surrogate (N.lor 0xd800 x)) 1024).
  - vm_compute. reflexivity.
  - apply N.mod_lt. discriminate.
Qed.

Lemma low_half_range c : Json.is_low_surrogate (low_half c) = true.
Proof.
  unfold low_half. change 0x3ff with (N.ones 10). rewrite N.land_ones.
  apply (forall_below (fun x => Json.is_low_surrogate (N.lor 0xdc00 x)) 1024).
  - vm_compute. reflexivity.
  - apply N.mod_lt. discriminate.
Qed.

Lemma high_surrogate_range u :
  Json.is_high_surrogate u = true <-> 0xd800 <= u <= 0xdbff.
Proof.
  unfold Json.is_high_surrogate. rewrite andb_true_iff, !N.leb_le. tauto.
Qed.

Lemma low_surrogate_range u :
  Json.is_low_surrogate u = true <-> 0xdc00 <= u <= 0xdfff.
Proof.
  unfold Json.is_low_surrogate. rewrite andb_true_iff, !N.leb_le. tauto.
Qed.

Lemma not_high_surrogate u :
  u < 0xd800 \/ 0xdbff < u -> Json.is_high_surrogate u = false.
Proof.
  intros H. destruct (Json.is_high_surrogate u) eqn:E; [|done].
  apply high_surrogate_range in E. lia.
Qed.

Lemma high_not_low u :
  Json.is_high_surrogate u = true -> Json.is_low_surrogate u = false.
Proof.
  intros H%high_surrogate_range.
  destruct (Json.is_low_surrogate u) eqn:E; [|done].
  apply low_surrogate_range in E. lia.
Qed.

Lemma escape_char_shape c : escape_shape c (Json.escape_char c).
Proof.
  unfold Json.escape_char.
  destruct (N.eqb_spec c 92) as [->|]; [by apply (shape_short _ 92)|].
  destruct (N.eqb_spec c 34) as [->|]; [by apply (shape_short _ 34)|].
  destruct (N.eqb_spec c 8) as [->|]; [by apply (shape_short _ 98)|].
  destruct (N.eqb_spec c 12) as [->|]; [by apply (shape_short _ 102)|].
  destruct (N.eqb_spec c 10) as [->|]; [by apply (shape_short _ 110)|].
  destruct (N.eqb_spec c 13) as [->|]; [by apply (shape_short _ 114)|].
  destruct (N.eqb_spec c 9) as [->|]; [by apply (shape_short _ 116)|].
  destruct (_ && _) eqn:E.
  - apply andb_true_iff in E as [H1%N.leb_le H2%N.leb_le].
    by apply shape_plain.
  - destruct (N.ltb_spec c 0x10000); [by apply shape_u|].
    by apply shape_pair.
Qed.

Lemma unescaped_cons c s :
  Json.is_high_surrogate c = false ->
  unescaped (c :: s) = decoded_char c :: unescaped s.
Proof. intros H. destruct s; simpl; by rewrite ?H. Qed.

Lemma decoded_char_small c : c < 0x10000 -> decoded_char c = c.
Proof.
  intros H. unfold decoded_char. by destruct (N.ltb_spec c 0x10000); [|lia].
Qed.

Lemma scanstring_plain c X :
  c <> 34 -> c <> 92 -> 32 <= c ->
  Json.scanstring (c :: X) = single c X.
Proof.
  intros H1 H2 H3. simpl.
  destruct (N.eqb_spec c 34); [done|]. destruct (N.eqb_spec c 92); [done|].
  destruct (N.ltb_spec c 32); [lia|]. reflexivity.
Qed.

Lemma scanstring_short esc ch X :
  Json.backslash esc = Some ch -> esc <> 117 ->
  Json.scanstring (92 :: esc :: X) = single ch X.
Proof.
  intros Hb He. cbn -[Json.backslash].
  destruct (N.eqb_spec esc 117); [done|]. rewrite Hb. reflexivity.
Qed.

Lemma scanstring_u uni X :
  uni < 0x10000 ->
  Json.scanstring (92 :: 117 :: Json.format_04x uni ++ X) =
  if Json.is_high_surrogate uni then
    match X with
    | b :: u :: rest3 =>
        if (b =? 92) && (u =? 117) then
          match rest3 with
          | g1 :: g2 :: g3 :: g4 :: rest4 =>
              match Json.decode_uXXXX g1 g2 g3 g4 with
              | None => None
              | Some uni2 =>
                  if Json.is_low_surrogate uni2 then
                    match Json.scanstring rest4 with
                    | Some (t, r) =>
                        Some (Json.combine_surrogates uni uni2 :: t, r)
                    | None => None
                    end
                  else single uni X
              end
          | _ => None
          end
        else single uni X
    | _ => single uni X
    end
  else single uni X.
Proof.
  intros Hu. unfold Json.format_04x.
  cbn -[Json.decode_uXXXX N.div N.modulo Json.is_high_surrogate
        Json.is_low_surrogate].
  rewrite decode_format by done. reflexivity.
Qed.

Lemma escape_cons c s :
  Json.escape (c :: s) = Json.escape_char c ++ Json.escape s.
Proof. reflexivity. Qed.

(** The decoder on what the encoder wrote for a string, up to the closing
    quote. *)
Lemma scanstring_escape_bounded n s rest :
  (length s <= n)%nat ->
  Json.scanstring (Json.escape s ++ 34 :: rest) = Some (unescaped s, rest).
Proof.
  revert s. induction n as [|n IH]; intros s Hlen.
  { destruct s; [done|simpl in Hlen; lia]. }
  destruct s as [|c s]; [done|]. simpl in Hlen.
  assert (forall uni, single uni (Json.escape s ++ 34 :: rest)
                      = Some (uni :: unescaped s, rest)) as Hsingle.
  { intros uni. unfold single. rewrite IH by lia. done. }
  rewrite escape_cons, <- app_assoc.
  destruct (escape_char_shape c) as [H1 H2 H3 H4|esc Hb He Hc|Hlt|Hge].
  - cbn [app]. rewrite scanstring_plain, Hsingle by done.
    rewrite unescaped_cons by (apply not_high_surrogate; lia).
    rewrite decoded_char_small by lia. done.
  - cbn [app]. rewrite (scanstring_short _ _ _ Hb He), Hsingle.
    rewrite unescaped_cons by (apply not_high_surrogate; lia).
    rewrite decoded_char_small by lia. done.
  - cbn [app]. rewrite scanstring_u by done.
    destruct (Json.is_high_surrogate c) eqn:Hhigh.
    2:{ rewrite Hsingle, unescaped_cons, decoded_char_small by done. done. }
    destruct s as [|c2 s2].
    { cbn [Json.escape flat_map app] in *.
      destruct rest as [|u r]; cbn; rewrite ?Hsingle;
        by rewrite decoded_char_small. }
    assert (single c (Json.escape (c2 :: s2) ++ 34 :: rest)
            = Some (c :: unescaped (c2 :: s2), rest)) as Hs by apply Hsingle.
    rewrite escape_cons, <- app_assoc in Hs |- *.
    set (Y := Json.escape s2 ++ 34 :: rest) in *.
    cbn [unescaped]. rewrite Hhigh. cbn [andb]. fold unescaped.
    destruct (escape_char_shape c2) as [G1 G2 G3 G4|esc Gb Ge Gc|Glt|Gge].
    + assert (Json.is_low_surrogate c2 = false) as ->.
      { destruct (Json.is_low_surrogate c2) eqn:E; [|done].
        apply low_surrogate_range in E. lia. }
      rewrite decoded_char_small by done.
      cbn [app] in *. destruct Y as [|u r].
      * done.
      * destruct (N.eqb_spec c2 92); [done|]. done.
    + assert (Json.is_low_surrogate c2 = false) as ->.
      { destruct (Json.is_low_surrogate c2) eqn:E; [|done].
        apply low_surrogate_range in E. lia. }
      rewrite decoded_char_small by done.
      cbn [app] in *. rewrite N.eqb_refl.
      destruct (N.eqb_spec esc 117); [done|]. done.
    + unfold Json.format_04x in *. cbn [app] in *.
      rewrite !N.eqb_refl. cbn [andb].
      rewrite decode_format by done.
      destruct (Json.is_low_surrogate c2).
      * unfold Y. rewrite IH by (simpl in Hlen; lia). done.
      * rewrite decoded_char_small by done. done.
    + assert (Json.is_low_surrogate c2 = false) as ->.
      { destruct (Json.is_low_surrogate c2) eqn:E; [|done].
        apply low_surrogate_range in E. lia. }
      rewrite decoded_char_small by done.
      unfold Json.format_04x in *. cbn [app] in *.
      rewrite !N.eqb_refl. cbn [andb].
      rewrite decode_format
        by (pose proof (high_half_range c2) as Hr;
            apply high_surrogate_range in Hr; lia).
      rewrite (high_not_low _ (high_half_range c2)). done.
  - assert (Json.is_high_surrogate c = false) as Hhigh
      by (apply not_high_surrogate; lia).
    pose proof (high_half_range c) as Hh.
    pose proof (low_half_range c) as Hl.
    rewrite <- app_assoc. cbn [app].
    rewrite scanstring_u
      by (apply high_surrogate_range in Hh; lia).
    rewrite Hh. unfold Json.format_04x. cbn [app].
    rewrite !N.eqb_refl. cbn [andb].
    rewrite decode_format by (apply low_surrogate_range in Hl; lia).
    rewrite Hl, IH by lia.
    rewrite unescaped_cons by done. unfold decoded_char.
    destruct (N.ltb_spec c 0x10000); [lia|]. done.
Qed.

Lemma scanstring_escape s rest :
  Json.scanstring (Json.escape s ++ 34 :: rest) = Some (unescaped s, rest).
Proof. by apply (scanstring_escape_bounded (length s)). Qed.

Lemma lor_shiftl_low h l :
  l < 2 ^ 10 -> N.lor (N.shiftl h 10) l = h * 2 ^ 10 + l.
Proof.
  intros Hl. rewrite <- N.shiftl_mul_pow2.
  rewrite <- N.lxor_lor, <- N.add_nocarry_lxor; try done.
  all: apply N.bits_inj; intros i; rewrite N.land_spec, N.bits_0.
  all: destruct (N.ltb_spec i 10) as [Hi|Hi].
  all: try (rewrite N.shiftl_spec_low by done; done).
  all: replace l with (l mod 2 ^ 10) by (by apply N.mod_small).
  all: rewrite N.mod_pow2_bits_high by done; apply andb_false_r.
Qed.

Lemma lor_d800 x : x < 1024 -> N.lor 0xd800 x - 0xd800 = x.
Proof.
  intros Hx.
  apply N.eqb_eq.
  apply (forall_below (fun x => N.lor 0xd800 x - 0xd800 =? x) 1024);
    [vm_compute; reflexivity|done].
Qed.

Lemma lor_dc00 x : x < 1024 -> N.lor 0xdc00 x - 0xdc00 = x.
Proof.
  intros Hx.
  apply N.eqb_eq.
  apply (forall_below (fun x => N.lor 0xdc00 x - 0xdc00 =? x) 1024);
    [vm_compute; reflexivity|done].
Qed.

Lemma decoded_char_valid c : c < 0x110000 -> decoded_char c = c.
Proof.
  intros Hc. unfold decoded_char.
  destruct (N.ltb_spec c 0x10000) as [|Hge]; [done|].
  unfold Json.combine_surrogates, high_half, low_half.
  set (n := c - 0x10000).
  change 0x3ff with (N.ones 10). rewrite !N.land_ones.
  rewrite N.shiftr_div_pow2.
  assert (n / 2 ^ 10 < 2 ^ 10) as Hh.
  { apply N.Div0.div_lt_upper_bound. change (2 ^ 10 * 2 ^ 10) with 0x100000.
    lia. }
  rewrite (N.mod_small (n / 2 ^ 10)) by done.
  rewrite lor_d800 by done.
  rewrite lor_dc00 by (apply N.mod_lt; discriminate).
  rewrite lor_shiftl_low by (apply N.mod_lt; discriminate).
  rewrite N.mul_comm, <- N.div_mod by discriminate. lia.
Qed.

Lemma unescaped_well_formed s : well_formed_text s -> unescaped s = s.
Proof.
  induction 1 as [|c s [Hc Hh] _ IH]; [done|].
  rewrite unescaped_cons, decoded_char_valid, IH by done. done.
Qed.

End escapes.

(** ** The decoder on the text of a value *)

Lemma decodes_mono f f' text v :
  decodes f text v -> f <= f' -> decodes f' text v.
Proof. intros H Hle g rest Hg. apply H. lia. Qed.

Lemma skip_whitespace_blank w s :
  blank w -> Json.skip_whitespace (w ++ s) = Json.skip_whitespace s.
Proof. induction 1 as [|c w Hc _ IH]; [done|]. simpl. by rewrite Hc. Qed.

Lemma skip_whitespace_head c r :
  Json.is_whitespace c = false -> Json.skip_whitespace (c :: r) = c :: r.
Proof. intros H. simpl. by rewrite H. Qed.

Lemma newline_indent_blank indent level :
  blank (Json.newline_indent indent level).
Proof.
  destruct indent as [n|]; simpl; [|constructor].
  constructor; [done|]. apply Forall_forall. intros c Hc.
  apply list_elem_of_In, repeat_spec in Hc. by subst.
Qed.

Lemma separator_shape indent level :
  exists w, Json.item_separator indent ++ Json.newline_indent indent level
            = 44%N :: w /\ blank w.
Proof.
  destruct indent as [n|].
  - exists (Json.newline_indent (Some n) level). split; [done|].
    apply newline_indent_blank.
  - exists [32%N]. split; [done|]. by constructor.
Qed.

(** A text that decodes starts with the first character of a value. *)
Lemma scan_once_head g s x :
  Json.scan_once g s = Some x ->
  exists c r, s = c :: r /\ Json.is_whitespace c = false /\ c <> 93%N.
Proof.
  destruct g as [|g]; [done|]. destruct s as [|c r]; [done|].
  intros H. exists c, r. split; [done|].
  split.
  - destruct (Json.is_whitespace c) eqn:E; [|done]. exfalso.
    unfold Json.is_whitespace in E.
    destruct (N.eqb_spec c 32) as [->|]; [done|].
    destruct (N.eqb_spec c 9) as [->|]; [done|].
    destruct (N.eqb_spec c 10) as [->|]; [done|].
    destruct (N.eqb_spec c 13) as [->|]; [done|]. done.
  - intros ->. done.
Qed.

Lemma scan_once_skip g s x :
  Json.scan_once g s = Some x -> Json.skip_whitespace s = s.
Proof.
  intros (c & r & -> & Hc & _)%scan_once_head. by apply skip_whitespace_head.
Qed.

Lemma array_values_eq g s :
  Json.array_values (S g) s =
  match Json.scan_once g s with
  | Some (value, r) =>
      match Json.skip_whitespace r with
      | c :: rest =>
          if (c =? 93)%N then Some ([value], rest)
          else if (c =? 44)%N then
            match Json.array_values g (Json.skip_whitespace rest) with
            | Some (values, r') => Some (value :: values, r')
            | None => None
            end
          else None
      | [] => None
      end
  | None => None
  end.
Proof.
  simpl. destruct (Json.scan_once g s) as [[value r]|]; [|done]. simpl.
  destruct (Json.skip_whitespace r) as [|c rest]; [done|].
  destruct (c =? 93)%N; [done|]. destruct (c =? 44)%N; [|done].
  destruct (Json.array_values g _) as [[]|]; done.
Qed.

Lemma array_values_head g s x :
  Json.array_values g s = Some x ->
  exists c r, s = c :: r /\ Json.is_whitespace c = false /\ c <> 93%N.
Proof.
  destruct g as [|g]; [done|]. rewrite array_values_eq.
  destruct (Json.scan_once g s) as [y|] eqn:E; [|done].
  intros _. by eapply scan_once_head.
Qed.

Lemma join_cons sep t ts :
  Json.join sep (t :: ts) =
  match ts with [] => t | _ :: _ => t ++ sep ++ Json.join sep ts end.
Proof. by destruct ts. Qed.

Lemma array_values_join f w2 w0 texts values :
  blank w2 -> blank w0 ->
  Forall2 (decodes f) texts values -> texts <> [] ->
  forall g rest, f + length texts <= g ->
    Json.array_values g (Json.join (44%N :: w2) texts ++ w0 ++ 93%N :: rest)
    = Some (values, rest).
Proof.
  intros Hw2 Hw0. induction 1 as [|t v ts vs Ht Hts IH]; [done|].
  intros _ g rest Hg. simpl in Hg.
  destruct g as [|g]; [lia|]. rewrite array_values_eq, join_cons.
  destruct ts as [|t2 ts].
  - apply Forall2_nil_inv_l in Hts as ->.
    rewrite (Ht g) by lia.
    rewrite skip_whitespace_blank by done. simpl. done.
  - rewrite <- !app_assoc. rewrite (Ht g) by lia.
    cbn [app]. rewrite skip_whitespace_head by done.
    cbn [N.eqb Pos.eqb]. rewrite <- ?app_assoc.
    rewrite skip_whitespace_blank by done.
    specialize (IH ltac:(done) g rest ltac:(simpl in *; lia)).
    destruct (array_values_head _ _ _ IH) as (c & r & Heq & Hc & _).
    rewrite Heq in IH |- *. rewrite skip_whitespace_head by done.
    by rewrite IH.
Qed.

Lemma object_pairs_eq g s :
  Json.object_pairs (S g) s =
  match Json.scanstring s with
  | Some (key, r) =>
      match Json.skip_whitespace r with
      | colon :: r1 =>
          if (colon =? 58)%N then
            match Json.scan_once g (Json.skip_whitespace r1) with
            | Some (value, r2) =>
                match Json.skip_whitespace r2 with
                | c :: rest =>
                    if (c =? 125)%N then Some ([(key, value)], rest)
                    else if (c =? 44)%N then
                      match Json.skip_whitespace rest with
                      | q :: rest' =>
                          if (q =? 34)%N then
                            match Json.object_pairs g rest' with
                            | Some (pairs, r') =>
                                Some ((key, value) :: pairs, r')
                            | None => None
                            end
                          else None
                      | [] => None
                      end
                    else None
                | [] => None
                end
            | None => None
            end
          else None
      | [] => None
      end
  | None => None
  end.
Proof.
  simpl. destruct (Json.scanstring s) as [[key r]|]; [|done]. simpl.
  destruct (Json.skip_whitespace r) as [|colon r1]; [done|].
  destruct (colon =? 58)%N; [|done].
  destruct (Json.scan_once g _) as [[value r2]|]; [|done]. simpl.
  destruct (Json.skip_whitespace r2) as [|c rest]; [done|].
  destruct (c =? 125)%N; [done|]. destruct (c =? 44)%N; [|done].
  destruct (Json.skip_whitespace rest) as [|q rest']; [done|].
  destruct (q =? 34)%N; [|done].
  destruct (Json.object_pairs g rest') as [[]|]; done.
Qed.

Lemma member_text_app indent level k v X :
  member_text indent level (k, v) ++ X =
  34%N :: Json.escape k
    ++ 34%N :: 58%N :: 32%N :: Json.iterencode indent level v ++ X.
Proof.
  unfold member_text, Json.encode_basestring_ascii. cbn [fst snd app].
  rewrite <- !app_assoc. reflexivity.
Qed.

Lemma object_pairs_join f indent level w2 w0 (d : dict) :
  blank w2 -> blank w0 ->
  Forall (fun kv => decodes f (Json.iterencode indent level (snd kv))
                      (decoded (snd kv))) d ->
  d <> [] ->
  forall g rest, f + length d <= g ->
  exists tail,
    Json.join (44%N :: w2) (List.map (member_text indent level) d)
      ++ w0 ++ 125%N :: rest = 34%N :: tail /\
    Json.object_pairs g tail =
      Some (List.map (fun kv => (unescaped (fst kv), decoded (snd kv))) d,
            rest).
Proof.
  intros Hw2 Hw0. induction 1 as [|[k v] d Hv Hd IH]; [done|].
  intros _ g rest Hg. simpl in Hg. destruct g as [|g]; [lia|].
  destruct d as [|kv2 d].
  - cbn [List.map Json.join]. rewrite member_text_app.
    eexists. split; [done|].
    rewrite object_pairs_eq, scanstring_escape.
    rewrite skip_whitespace_head by done. cbn [N.eqb Pos.eqb].
    change (Json.skip_whitespace (32%N :: ?x)) with (Json.skip_whitespace x).
    cbn [fst snd] in *.
    pose proof (Hv g (w0 ++ 125%N :: rest) ltac:(lia)) as Hscan.
    rewrite (scan_once_skip _ _ _ Hscan), Hscan.
    rewrite skip_whitespace_blank by done. done.
  - destruct (IH ltac:(done) g rest ltac:(simpl in *; lia))
      as (tail & Htail & Hpairs).
    change (List.map (member_text indent level) ((k, v) :: kv2 :: d))
      with (member_text indent level (k, v)
              :: List.map (member_text indent level) (kv2 :: d)).
    rewrite join_cons.
    change (List.map (member_text indent level) (kv2 :: d))
      with (member_text indent level kv2
              :: List.map (member_text indent level) d) in Htail |- *.
    cbv iota. rewrite <- !app_assoc. cbn [app].
    rewrite Htail, member_text_app. eexists. split; [done|].
    rewrite object_pairs_eq, scanstring_escape.
    rewrite skip_whitespace_head by done. cbn [N.eqb Pos.eqb].
    change (Json.skip_whitespace (32%N :: ?x)) with (Json.skip_whitespace x).
    cbn [fst snd] in *.
    pose proof (Hv g (44%N :: w2 ++ 34%N :: tail) ltac:(lia)) as Hscan.
    rewrite (scan_once_skip _ _ _ Hscan), Hscan.
    rewrite skip_whitespace_head by done. cbn [N.eqb Pos.eqb].
    rewrite skip_whitespace_blank, skip_whitespace_head by done.
    cbn [N.eqb Pos.eqb]. rewrite Hpairs. done.
Qed.

Lemma iterencode_list indent level x xs :
  Json.iterencode indent level (PList (x :: xs)) =
  91%N :: Json.newline_indent indent (S level)
    ++ Json.join (Json.item_separator indent
                    ++ Json.newline_indent indent (S level))
         (List.map (Json.iterencode indent (S level)) (x :: xs))
    ++ Json.newline_indent indent level ++ [93%N].
Proof. reflexivity. Qed.

Lemma iterencode_dict indent level kv d :
  Json.iterencode indent level (PDict (kv :: d)) =
  123%N :: Json.newline_indent indent (S level)
    ++ Json.join (Json.item_separator indent
                    ++ Json.newline_indent indent (S level))
         (List.map (member_text indent (S level)) (kv :: d))
    ++ Json.newline_indent indent level ++ [125%N].
Proof. reflexivity. Qed.

Lemma decodes_list f indent level l :
  Forall (fun x => decodes f (Json.iterencode indent (S level) x)
                     (decoded x)) l ->
  decodes (S (f + length l)) (Json.iterencode indent level (PList l))
    (decoded (PList l)).
Proof.
  intros Hl g rest Hg. destruct g as [|g]; [lia|].
  destruct l as [|x xs]; [done|].
  rewrite iterencode_list.
  destruct (separator_shape indent (S level)) as (w2 & -> & Hw2).
  pose proof (newline_indent_blank indent (S level)) as Hw1.
  pose proof (newline_indent_blank indent level) as Hw0.
  assert (Json.array_values g
            (Json.join (44%N :: w2)
               (List.map (Json.iterencode indent (S level)) (x :: xs))
             ++ Json.newline_indent indent level ++ 93%N :: rest)
          = Some (List.map decoded (x :: xs), rest)) as Harr.
  { apply (array_values_join f); try done.
    - apply Forall2_fmap, Forall_Forall2_diag. exact Hl.
    - rewrite length_map. lia. }
  destruct (array_values_head _ _ _ Harr) as (c & r & Heq & Hc & Hc').
  cbn [app]. rewrite <- !app_assoc. cbn [app].
  cbn [Json.scan_once N.eqb Pos.eqb].
  rewrite skip_whitespace_blank by done.
  rewrite Heq in Harr |- *. rewrite skip_whitespace_head by done.
  destruct (N.eqb_spec c 93); [done|]. by rewrite Harr.
Qed.

Lemma decodes_dict f indent level d :
  Forall (fun kv => decodes f (Json.iterencode indent (S level) (snd kv))
                      (decoded (snd kv))) d ->
  decodes (S (f + length d)) (Json.iterencode indent level (PDict d))
    (decoded (PDict d)).
Proof.
  intros Hd g rest Hg. destruct g as [|g]; [lia|].
  destruct d as [|kv d]; [done|].
  rewrite iterencode_dict.
  destruct (separator_shape indent (S level)) as (w2 & -> & Hw2).
  pose proof (newline_indent_blank indent (S level)) as Hw1.
  pose proof (newline_indent_blank indent level) as Hw0.
  destruct (object_pairs_join f indent (S level) w2
              (Json.newline_indent indent level) (kv :: d) Hw2 Hw0 Hd
              ltac:(done) g rest ltac:(simpl in *; lia))
    as (tail & Htail & Hpairs).
  cbn [app]. rewrite <- !app_assoc. cbn [app].
  cbn [Json.scan_once N.eqb Pos.eqb].
  rewrite skip_whitespace_blank by done.
  rewrite Htail, skip_whitespace_head by done.
  cbn [N.eqb Pos.eqb]. by rewrite Hpairs.
Qed.

Lemma weight_le_sum (l : list pyval) x :
  x ∈ l -> weight x <= list_sum (List.map weight l).
Proof.
  induction 1 as [x l|x y l _ IH]; simpl; lia.
Qed.

(** The decoder reads back the text of every value, compact or indented. *)
Lemma decodes_iterencode v :
  forall indent level,
    decodes (weight v) (Json.iterencode indent level v) (decoded v).
Proof.
  induction v as [|b|s|l IH|d IH] using pyval_nested_ind;
    intros indent level.
  - intros [|g] rest Hg; [simpl in Hg; lia|]. reflexivity.
  - intros [|g] rest Hg; [simpl in Hg; lia|]. by destruct b.
  - intros [|g] rest Hg; [simpl in Hg; lia|].
    unfold Json.iterencode, Json.encode_basestring_ascii.
    cbn [app]. rewrite <- app_assoc. cbn [app Json.scan_once N.eqb Pos.eqb].
    by rewrite scanstring_escape.
  - cbn [weight]. apply decodes_list.
    apply Forall_forall. intros x Hx.
    rewrite Forall_forall in IH.
    eapply decodes_mono; [apply IH, Hx|]. by apply weight_le_sum.
  - cbn [weight]. apply decodes_dict.
    apply Forall_forall. intros kv Hkv.
    rewrite Forall_forall in IH.
    eapply decodes_mono; [apply IH, Hkv|].
    clear -Hkv. induction Hkv; simpl; lia.
Qed.

Lemma join_length sep texts :
  1 <= length sep -> texts <> [] ->
  list_sum (List.map length texts) + length texts
  <= S (length (Json.join sep texts)).
Proof.
  intros Hsep. induction texts as [|t ts IH]; [done|]. intros _.
  rewrite join_cons. destruct ts as [|t2 ts]; [simpl; lia|].
  specialize (IH ltac:(done)). rewrite !length_app.
  cbn [List.map list_sum fold_right length] in *. lia.
Qed.

Lemma separator_length indent level :
  1 <= length (Json.item_separator indent ++ Json.newline_indent indent level).
Proof.
  destruct (separator_shape indent level) as (w & -> & _). simpl. lia.
Qed.

(** The fuel [loads] starts with, the length of the text, is enough. *)
Lemma weight_le_length v :
  forall indent level, weight v <= length (Json.iterencode indent level v).
Proof.
  induction v as [|b|s|l IH|d IH] using pyval_nested_ind;
    intros indent level.
  - simpl. lia.
  - destruct b; simpl; lia.
  - simpl. lia.
  - destruct l as [|x xs]; [simpl; lia|].
    rewrite iterencode_list. cbn [weight length].
    rewrite !length_app.
    pose proof (join_length
                  (Json.item_separator indent
                     ++ Json.newline_indent indent (S level))
                  (List.map (Json.iterencode indent (S level)) (x :: xs))
                  (separator_length _ _) ltac:(done)) as Hjoin.
    rewrite length_map in Hjoin.
    assert (list_sum (List.map weight (x :: xs))
            <= list_sum (List.map length
                 (List.map (Json.iterencode indent (S level)) (x :: xs))))
      as Hsum.
    { clear -IH. induction IH as [|y ys Hy _ IHys]; [done|].
      unfold list_sum in *. cbn [List.map fold_right].
      specialize (Hy indent (S level)). lia. }
    cbn [length] in *. lia.
  - destruct d as [|kv d]; [simpl; lia|].
    rewrite iterencode_dict. cbn [weight length].
    rewrite !length_app.
    pose proof (join_length
                  (Json.item_separator indent
                     ++ Json.newline_indent indent (S level))
                  (List.map (member_text indent (S level)) (kv :: d))
                  (separator_length _ _) ltac:(done)) as Hjoin.
    rewrite length_map in Hjoin.
    assert (list_sum (List.map (fun kv => weight (snd kv)) (kv :: d))
            <= list_sum (List.map length
                 (List.map (member_text indent (S level)) (kv :: d))))
      as Hsum.
    { clear -IH. induction IH as [|y ys Hy _ IHys]; [done|].
      unfold list_sum in *. cbn [List.map fold_right].
      specialize (Hy indent (S level)).
      unfold member_text at 1. rewrite !length_app. lia. }
    cbn [length] in *. lia.
Qed.

Lemma skip_whitespace_all_blank w : blank w -> Json.skip_whitespace w = [].
Proof.
  intros H. rewrite <- (app_nil_r w). by rewrite skip_whitespace_blank.
Qed.

(** [json.loads(json.dumps(v, indent=indent))], also with blank text such
    as the newline of [print] after it. *)
Lemma loads_dumps v indent w :
  blank w -> Json.loads (Json.dumps v indent ++ w) = Some (decoded v).
Proof.
  intros Hw. unfold Json.loads, Json.dumps.
  pose proof (decodes_iterencode v indent 0
                (length (Json.iterencode indent 0 v ++ w)) w) as Hscan.
  rewrite (scan_once_skip _ _ _ (Hscan ltac:(rewrite length_app;
    pose proof (weight_le_length v indent 0); lia))).
  rewrite Hscan
    by (rewrite length_app; pose proof (weight_le_length v indent 0); lia).
  simpl. by rewrite skip_whitespace_all_blank.
Qed.

Lemma decoded_ok_result ts cm :
  decoded (PDict (ok_result ts cm)) =
  PDict (ok_result (unescaped ts) (unescaped cm)).
Proof. reflexivity. Qed.

(** On a result whose strings are well-formed text the printed JSON reads
    back as the result itself. *)
Lemma printed_json_reads_back indent ts cm :
  well_formed_text ts -> well_formed_text cm ->
  Json.loads (Json.dumps (PDict (ok_result ts cm)) indent ++ [10%N])
  = Some (PDict (ok_result ts cm)).
Proof.
  intros Hts Hcm. rewrite loads_dumps by (by constructor).
  by rewrite decoded_ok_result, !unescaped_well_formed.
Qed.

(** ** The two JSON texts of check_health's result *)





Lemma printableb_spec c : printableb c = true <-> printable c.
Proof.
  unfold printableb, printable. rewrite andb_true_iff, !N.leb_le. tauto.
Qed.

Lemma forallb_printable s : forallb printableb s = true -> Forall printable s.
Proof.
  intros H. apply Forall_forall. intros c Hc. apply printableb_spec.
  rewrite forallb_forall in H. by apply H, list_elem_of_In.
Qed.

Lemma hex_digit_printable d : (d < 16)%N -> printable (Json.hex_digit d).
Proof.
  intros Hd. unfold Json.hex_digit, printable.
  destruct (N.ltb_spec d 10); lia.
Qed.

Lemma format_04x_printable n : Forall printable (Json.format_04x n).
Proof.
  unfold Json.format_04x.
  repeat (apply List.Forall_cons;
          [apply hex_digit_printable, N.mod_lt; discriminate|]).
  constructor.
Qed.

Lemma escape_char_printable c : Forall printable (Json.escape_char c).
Proof.
  unfold Json.escape_char.
  repeat match goal with
         | |- Forall _ (if (c =? ?k)%N then _ else _) =>
             destruct (c =? k)%N;
             [by apply forallb_printable|]
         end.
  destruct (_ && _) eqn:E.
  - constructor; [|constructor]. apply printableb_spec. exact E.
  - destruct (c <? 65536)%N.
    + constructor; [by apply printableb_spec|].
      constructor; [by apply printableb_spec|]. apply format_04x_printable.
    + apply Forall_app. split;
        (constructor; [by apply printableb_spec|];
         constructor; [by apply printableb_spec|];
         apply format_04x_printable).
Qed.

Lemma escape_printable s : Forall printable (Json.escape s).
Proof.
  induction s as [|c s IH]; [constructor|].
  rewrite escape_cons. apply Forall_app. split; [|done].
  apply escape_char_printable.
Qed.

Lemma quoted_printable s : Forall printable s -> Forall printable (quoted s).
Proof.
  intros H. unfold quoted. constructor; [by apply printableb_spec|].
  apply Forall_app. split; [done|]. by apply forallb_printable.
Qed.





(** ** Rendering *)

Lemma with_output_nil w : with_output w [] = w.
Proof. destruct w. unfold with_output. simpl. by rewrite app_nil_r. Qed.

Lemma with_output_app w a b :
  with_output (with_output w a) b = with_output w (a ++ b).
Proof. unfold with_output. simpl. by rewrite app_assoc. Qed.

(** *** What the standard output takes *)

Lemma print_encodes s w :
  encodes w s -> print s w = (Return tt, with_output w (s ++ [10%N])).
Proof. unfold encodes, print. by intros ->. Qed.

Lemma print_refuses s w :
  ~ encodes w s -> print s w = (Raise UnicodeEncodeError, w).
Proof. unfold encodes, print. by destruct (forallb (encodable w) s). Qed.

Lemma encodes_app w a b : encodes w (a ++ b) <-> encodes w a /\ encodes w b.
Proof. unfold encodes. by rewrite forallb_app, andb_true_iff. Qed.

(** Printing changes nothing in what the stream takes. *)
Lemma encodes_with_output w t s : encodes (with_output w t) s <-> encodes w s.
Proof. done. Qed.

Lemma encodes_all_with_output w t lines :
  Forall (encodes w) lines -> Forall (encodes (with_output w t)) lines.
Proof. done. Qed.

Lemma plain_encodes w s : Forall plain s -> encodes w s.
Proof.
  intros H. unfold encodes. apply forallb_forall. intros c Hc.
  apply list_elem_of_In in Hc. rewrite Forall_forall in H. unfold encodable.
  destruct (H c Hc) as [[_ Hp]| ->]; [|done].
  apply orb_true_iff. left. apply N.ltb_lt. lia.
Qed.

Lemma printable_plain s : Forall printable s -> Forall plain s.
Proof. intros H. eapply Forall_impl; [exact H|]. intros c Hc. by left. Qed.

Lemma literal_encodes w s :
  forallb printableb s = true -> encodes w s.
Proof. intros H. by apply plain_encodes, printable_plain, forallb_printable. Qed.

(** *** The JSON text of any value *)

Lemma join_Forall (P : N -> Prop) sep parts :
  Forall P sep -> Forall (Forall P) parts -> Forall P (Json.join sep parts).
Proof.
  intros Hsep. induction 1 as [|p ps Hp Hps IH]; [constructor|].
  rewrite join_cons. destruct ps; [done|].
  apply Forall_app. split; [done|]. apply Forall_app. by split.
Qed.

Lemma newline_indent_plain indent level :
  Forall plain (Json.newline_indent indent level).
Proof.
  destruct indent as [n|]; simpl; [|constructor].
  constructor; [by right|]. apply Forall_forall. intros c Hc.
  apply list_elem_of_In, repeat_spec in Hc. subst. left.
  by apply printableb_spec.
Qed.

Lemma item_separator_plain indent : Forall plain (Json.item_separator indent).
Proof.
  apply printable_plain. destruct indent; by apply forallb_printable.
Qed.

(** Whatever the indentation, the text of a value holds printable ASCII
    characters and newlines only. *)
Lemma iterencode_plain indent v :
  forall level, Forall plain (Json.iterencode indent level v).
Proof.
  induction v as [|b|s|l IH|d IH] using pyval_nested_ind; intros level.
  - by apply printable_plain, forallb_printable.
  - destruct b; by apply printable_plain, forallb_printable.
  - apply printable_plain, (quoted_printable (Json.escape s)), escape_printable.
  - destruct l as [|x xs]; [by apply printable_plain, forallb_printable|].
    rewrite iterencode_list.
    constructor; [left; by apply printableb_spec|].
    apply Forall_app. split; [apply newline_indent_plain|].
    apply Forall_app. split.
    + apply join_Forall.
      { apply Forall_app. split;
          [apply item_separator_plain|apply newline_indent_plain]. }
      apply Forall_forall. intros t Ht.
      apply list_elem_of_fmap in Ht as (y & -> & Hy).
      rewrite Forall_forall in IH. by apply IH.
    + apply Forall_app. split; [apply newline_indent_plain|].
      by apply printable_plain, forallb_printable.
  - destruct d as [|kv d]; [by apply printable_plain, forallb_printable|].
    rewrite iterencode_dict.
    constructor; [left; by apply printableb_spec|].
    apply Forall_app. split; [apply newline_indent_plain|].
    apply Forall_app. split.
    + apply join_Forall.
      { apply Forall_app. split;
          [apply item_separator_plain|apply newline_indent_plain]. }
      apply Forall_forall. intros t Ht.
      apply list_elem_of_fmap in Ht as (y & -> & Hy).
      rewrite Forall_forall in IH. unfold member_text.
      apply Forall_app. split.
      { apply printable_plain, (quoted_printable (Json.escape (fst y))),
          escape_printable. }
      apply Forall_app. split; [by apply printable_plain, forallb_printable|].
      by apply IH.
    + apply Forall_app. split; [apply newline_indent_plain|].
      by apply printable_plain, forallb_printable.
Qed.

Lemma render_json v result w :
  render (mkNamespace v true) result w =
  (Return tt,
   with_output w (Json.dumps (PDict result) (if v then Some 2 else None)
                    ++ [10%N])).
Proof.
  unfold render. cbn [json verbose].
  apply print_encodes, plain_encodes, iterencode_plain.
Qed.

(** *** The report *)

(** Lines 86-87 on an entry that has its three fields: one [print] of its
    line. *)
Lemma print_check_line d name value ok w :
  dict_lookup (lit "name") d = Some (PStr name) ->
  dict_lookup (lit "value") d = Some (PStr value) ->
  dict_lookup (lit "ok") d = Some ok ->
  print_check (PDict d) w = print (check_line name value (truthy ok)) w.
Proof.
  intros Hn Hv Hok.
  unfold print_check, mbind, M_bind, lift, getitem, dict_getitem.
  rewrite Hok, Hn, Hv. reflexivity.
Qed.

Lemma print_check_truthy check line w :
  renders_truthy check line -> encodes w line ->
  print_check check w = (Return tt, with_output w (line ++ [10%N])).
Proof.
  intros (d & name & value & ok & -> & Hn & Hv & Hok & ->) He.
  rewrite (print_check_line d name value ok w Hn Hv Hok).
  by apply print_encodes.
Qed.

Lemma renders_as_truthy check line :
  renders_as check line -> renders_truthy check line.
Proof.
  intros (d & name & value & ok & -> & Hn & Hv & Hok & ->).
  exists d, name, value, (PBool ok). by repeat split.
Qed.

Lemma print_check_run check line w :
  renders_as check line -> encodes w line ->
  print_check check w = (Return tt, with_output w (line ++ [10%N])).
Proof. intros H. by apply print_check_truthy, renders_as_truthy. Qed.

Lemma for_each_truthy checks lines :
  Forall2 renders_truthy checks lines ->
  forall w, Forall (encodes w) lines ->
            for_each checks print_check w
            = (Return tt, with_output w (unlines lines)).
Proof.
  induction 1 as [|c line cs ls Hc _ IH]; intros w Hall.
  - simpl. by rewrite with_output_nil.
  - apply List.Forall_cons_iff in Hall as [Hline Hall].
    cbn [for_each]. unfold mbind, M_bind.
    rewrite (print_check_truthy _ _ _ Hc Hline).
    rewrite (IH _ (encodes_all_with_output w _ ls Hall)), with_output_app.
    done.
Qed.

Lemma for_each_print_check checks lines :
  Forall2 renders_as checks lines ->
  forall w, Forall (encodes w) lines ->
            for_each checks print_check w
            = (Return tt, with_output w (unlines lines)).
Proof.
  intros H. apply for_each_truthy.
  eapply Forall2_impl; [exact H|]. apply renders_as_truthy.
Qed.

(** What [print_check] does not print it does not print in part: when a
    lookup fails or the stream refuses the line, the output is as it was;
    and so it ends after any other text went out before. *)
Lemma print_check_failure c w o :
  fst (print_check c w) = o -> o <> Return tt ->
  forall t, print_check c (with_output w t) = (o, with_output w t).
Proof.
  unfold print_check.
  generalize (getitem c (lit "ok")) (getitem c (lit "name") ≫= py_str)
    (getitem c (lit "value") ≫= py_str).
  unfold mbind, M_bind, lift, print.
  intros [ok| | |] [name| | |] [value| | |]; cbn [fst];
    intros <- Hne t; try reflexivity.
  match goal with
  | |- context [forallb (encodable (with_output w t)) ?s] =>
      change (forallb (encodable (with_output w t)) s)
        with (forallb (encodable w) s) in *
  end.
  destruct (forallb (encodable w) _); [exfalso; by apply Hne|reflexivity].
Qed.

Lemma for_each_stops pre c post lines o :
  Forall2 renders_truthy pre lines ->
  o <> Return tt ->
  forall w, Forall (encodes w) lines ->
            fst (print_check c w) = o ->
            for_each (pre ++ c :: post) print_check w
            = (o, with_output w (unlines lines)).
Proof.
  intros Hpre Hne. induction Hpre as [|x line xs ls Hx _ IH]; intros w Hall Ho.
  - cbn [app for_each]. unfold mbind, M_bind.
    pose proof (print_check_failure _ _ _ Ho Hne []) as Hrun.
    rewrite with_output_nil in Hrun. rewrite Hrun.
    simpl. rewrite with_output_nil. by destruct o as [[]| | |].
  - apply List.Forall_cons_iff in Hall as [Hline Hall].
    cbn [app for_each]. unfold mbind, M_bind.
    rewrite (print_check_truthy _ _ _ Hx Hline).
    rewrite (IH _ (encodes_all_with_output w _ ls Hall)), with_output_app;
      [done|].
    by rewrite (print_check_failure _ _ _ Ho Hne).
Qed.

Lemma status_line_encodes w status :
  encodes w status -> encodes w (lit "Status: " ++ status).
Proof. intros H. apply encodes_app. split; [by apply literal_encodes|done]. Qed.

Lemma render_human_truthy v result status checks lines w :
  dict_lookup (lit "status") result = Some (PStr status) ->
  dict_lookup (lit "checks") result = Some (PList checks) ->
  Forall2 renders_truthy checks lines ->
  encodes w status -> Forall (encodes w) lines ->
  render (mkNamespace v false) result w =
  (Return tt, with_output w (unlines ((lit "Status: " ++ status) :: lines))).
Proof.
  intros Hs Hc Hl Hes Hel. unfold render. cbn [json].
  unfold mbind, M_bind, lift, dict_getitem. rewrite Hs, Hc.
  cbn [mbind outcome_bind py_str py_iter].
  rewrite (print_encodes _ _ (status_line_encodes _ _ Hes)).
  rewrite (for_each_truthy _ _ Hl _ (encodes_all_with_output w _ _ Hel)).
  by rewrite with_output_app.
Qed.


(** The report ends at the first entry whose line cannot be built or
    printed, after the lines before it. *)
Lemma render_human_stops v result status pre c post lines o w :
  dict_lookup (lit "status") result = Some (PStr status) ->
  dict_lookup (lit "checks") result = Some (PList (pre ++ c :: post)) ->
  Forall2 renders_truthy pre lines ->
  encodes w status -> Forall (encodes w) lines ->
  fst (print_check c w) = o -> o <> Return tt ->
  render (mkNamespace v false) result w =
  (o, with_output w (unlines ((lit "Status: " ++ status) :: lines))).
Proof.
  intros Hs Hc Hl Hes Hel Ho Hne. unfold render. cbn [json].
  unfold mbind, M_bind, lift, dict_getitem. rewrite Hs, Hc.
  cbn [mbind outcome_bind py_str py_iter].
  rewrite (print_encodes _ _ (status_line_encodes _ _ Hes)).
  rewrite (for_each_stops pre c post lines o Hl Hne _
             (encodes_all_with_output w _ _ Hel)).
  - by rewrite with_output_app.
  - by rewrite (print_check_failure _ _ _ Ho Hne).
Qed.

Lemma main_eq args w :
  main args w =
  match render args (ok_result (utcnow_isoformat w) (check_mode_of w)) w with
  | (Return _, w') => (SystemExit 0%Z, w')
  | (Raise e, w') => (Raise e, w')
  | (SystemExit c, w') => (SystemExit c, w')
  | (Unmodelled, w') => (Unmodelled, w')
  end.
Proof.
  unfold main, main_with, mbind, M_bind. rewrite check_health_eq.
  destruct (render args _ w) as [[] ?]; reflexivity.
Qed.





(** On a standard output without the check mark the report ends after its
    first line. *)
Lemma main_human_refused v w :
  ~ encodes w check_mark ->
  main (mkNamespace v false) w =
  (Raise UnicodeEncodeError, with_output w (lit "Status: OK" ++ [10%N])).
Proof.
  intros Hm. rewrite main_eq.
  rewrite (render_human_stops v
             (ok_result (utcnow_isoformat w) (check_mode_of w)) (lit "OK")
             [] (environment_check (check_mode_of w)) [cpu_check; api_check]
             [] (Raise UnicodeEncodeError) w eq_refl eq_refl
             (List.Forall2_nil _)
             (literal_encodes w (lit "OK") eq_refl) (List.Forall_nil _)).
  - cbn [unlines flat_map]. by rewrite app_nil_r.
  - unfold environment_check.
    rewrite (print_check_line
               [ (lit "name", PStr (lit "Environment"));
                 (lit "value", PStr (check_mode_of w));
                 (lit "ok", PBool true) ]
               (lit "Environment") (check_mode_of w) (PBool true) w
               eq_refl eq_refl eq_refl).
    rewrite print_refuses; [done|].
    intros He. apply Hm. unfold check_line in He. cbn [truthy] in He.
    apply encodes_app in He as [_ He]. by apply encodes_app in He as [He _].
  - discriminate.
Qed.

Lemma main_json v w :
  main (mkNamespace v true) w =
  (SystemExit 0%Z,
   with_output w
     (Json.dumps (PDict (ok_result (utcnow_isoformat w) (check_mode_of w)))
        (if v then Some 2 else None) ++ [10%N])).
Proof. rewrite main_eq, render_json. reflexivity. Qed.

(** *** Lines *)






(** ** The model on concrete inputs *)

Example sample_is_critical :
  determine_overall_status sample_result =
  Return (2%Z, dict_setitem sample_result (lit "status")
                 (PStr (lit "CRITICAL"))).
Proof. reflexivity. Qed.

Example one_warning :
  determine_overall_status
    [ (lit "status", PStr (lit "OK"));
      (lit "checks", PList [ PDict [ (lit "name", PStr (lit "load"));
                                     (lit "ok", PBool false);
                                     (lit "severity", PStr (lit "minor")) ] ]) ]
  = Return (1%Z,
      [ (lit "status", PStr (lit "WARNING"));
        (lit "checks", PList [ PDict [ (lit "name", PStr (lit "load"));
                                       (lit "ok", PBool false);
                                       (lit "severity", PStr (lit "minor")) ] ]) ]).
Proof. reflexivity. Qed.

Example entry_without_ok :
  determine_overall_status
    [ (lit "checks", PList [ PDict [ (lit "name", PStr (lit "load")) ] ]) ]
  = Raise (KeyError (lit "ok")).
Proof. reflexivity. Qed.

(** U+1F600, a newline, a quote and [A]. *)
Example escape_sample :
  Json.escape [0x1F600; 10; 34; 65]%N
  = lit "\ud83d\ude00\n\" ++ [34%N] ++ lit "A".
Proof. reflexivity. Qed.

Example scanstring_sample :
  Json.scanstring (Json.escape [0x1F600; 10; 34; 65]%N ++ [34; 44]%N)
  = Some ([0x1F600; 10; 34; 65]%N, [44%N]).
Proof. reflexivity. Qed.

(** A lone high surrogate next to a lone low one reads back as one
    character. *)
Example unescaped_sample :
  unescaped [0xd83d; 0xde00]%N = [0x1F600%N].
Proof. reflexivity. Qed.

Example loads_sample :
  Json.loads (lit " [ null , true,false, [], { } ,[[ ]]] ")
  = Some (PList [PNone; PBool true; PBool false; PList []; PDict [];
                 PList [PList []]]).
Proof. reflexivity. Qed.

Example loads_trailing_comma : Json.loads (lit "[null,]") = None.
Proof. reflexivity. Qed.

Example print_refused :
  print (lit "50 " ++ [0x20AC%N]) other_world
  = (Raise UnicodeEncodeError, other_world).
Proof. reflexivity. Qed.

Example split_lines_sample :
  split_lines (lit "ab" ++ [10%N; 10%N] ++ lit "c" ++ [10%N])
  = [lit "ab"; []; lit "c"].
Proof. reflexivity. Qed.

Example main_on_sample_world :
  main (mkNamespace false false) sample_world =
  (SystemExit 0%Z,
   with_output sample_world
     (lit "Status: OK" ++ [10%N]
      ++ lit "  " ++ [0x2713%N] ++ lit " Environment: prod" ++ [10%N]
      ++ lit "  " ++ [0x2713%N] ++ lit " CPU Usage: Normal" ++ [10%N]
      ++ lit "  " ++ [0x2713%N] ++ lit " External API: Reachable" ++ [10%N])).
Proof. vm_compute. reflexivity. Qed.

(** * The claims *)

(** C1: the status that lines 57-70 store is CRITICAL when some entry has
    [ok = false] and [severity = "critical"], else WARNING when some entry
    has [ok = false], else OK. *)
Theorem status_invariant (result : dict) (checks : list pyval) :
  dict_lookup (lit "checks") result = Some (PList checks) ->
  Forall has_ok_flag checks ->
  exists code result',
    determine_overall_status result = Return (code, result') /\
    dict_lookup (lit "checks") result' = Some (PList checks) /\
    (Exists critical_failure checks ->
     status_of result' = Some (PStr (lit "CRITICAL"))) /\
    (~ Exists critical_failure checks -> Exists failing checks ->
     status_of result' = Some (PStr (lit "WARNING"))) /\
    (~ Exists failing checks ->
     status_of result' = Some (PStr (lit "OK"))).
Proof.
  intros Hchecks Hwf.
  destruct (determine_overall_status_spec result checks Hchecks Hwf)
    as (code & status & Hrun & Hcases).
  exists code, (dict_setitem result (lit "status") (PStr status)).
  split; [done|]. split.
  { by rewrite dict_lookup_setitem_ne. }
  unfold status_of. rewrite dict_lookup_setitem_eq.
  assert (Exists critical_failure checks -> Exists failing checks) as Hsub.
  { intros Hc. eapply Exists_impl; [exact Hc|].
    apply critical_failure_failing. }
  destruct Hcases as [(Hc & _ & ->)|[(Hnc & Hf & _ & ->)|(Hnf & _ & ->)]];
    (split; [|split]); intros; first [reflexivity | exfalso; tauto].
Qed.

Lemma status_invariant_witness :
  exists code result',
    determine_overall_status sample_result = Return (code, result') /\
    dict_lookup (lit "checks") result' = Some (PList sample_checks) /\
    (Exists critical_failure sample_checks ->
     status_of result' = Some (PStr (lit "CRITICAL"))) /\
    (~ Exists critical_failure sample_checks -> Exists failing sample_checks ->
     status_of result' = Some (PStr (lit "WARNING"))) /\
    (~ Exists failing sample_checks ->
     status_of result' = Some (PStr (lit "OK"))).
Proof.
  apply (status_invariant sample_result sample_checks).
  - reflexivity.
  - exact sample_checks_flags.
Defined.


Lemma sample_result_shallow : shallow (PDict sample_result).
Proof. unfold shallow. apply Nat.leb_le. reflexivity. Defined.



(** C3: whatever the environment and the [verbose] argument, [check_health]
    returns code 0 and a result whose status is "OK". *)
Theorem check_health_always_ok (verbose : bool) (w : World) :
  exists result,
    fst (check_health verbose w) = Return (0%Z, result) /\
    status_of result = Some (PStr (lit "OK")).
Proof.
  exists (ok_result (utcnow_isoformat w) (check_mode_of w)).
  by rewrite check_health_eq.
Qed.

(** C4: the one entry named "Environment" has for value the text of
    [CHECK_MODE], "default" when the variable is unset; the code and the
    status are the same in every other environment. *)
Theorem check_mode_echoed (verbose : bool) (w w' : World) :
  exists code result checks entry result',
    fst (check_health verbose w) = Return (code, result) /\
    dict_lookup (lit "checks") result = Some (PList checks) /\
    List.filter (named (lit "Environment")) checks = [entry] /\
    getitem entry (lit "value") =
      Return (PStr (match environ w !! lit "CHECK_MODE" with
                    | Some s => s
                    | None => lit "default"
                    end)) /\
    fst (check_health verbose w') = Return (code, result') /\
    status_of result' = status_of result.
Proof.
  exists 0%Z, (ok_result (utcnow_isoformat w) (check_mode_of w)).
  exists [environment_check (check_mode_of w); cpu_check; api_check].
  exists (environment_check (check_mode_of w)).
  exists (ok_result (utcnow_isoformat w') (check_mode_of w')).
  rewrite !check_health_eq. repeat split.
Qed.







(** C7: the text that JSON mode prints decodes to an object with exactly the
    fields timestamp, status and checks, in which every check has exactly
    name, value and ok; it is the result itself, every string read back
    through its escapes. *)
Theorem json_output_round_trips (v : bool) (w : World) :
  exists text obj checks,
    main (mkNamespace v true) w = (SystemExit 0%Z, with_output w text) /\
    Json.loads text = Some (PDict obj) /\
    obj = ok_result (unescaped (utcnow_isoformat w))
            (unescaped (check_mode_of w)) /\
    dict_keys obj = [lit "timestamp"; lit "status"; lit "checks"] /\
    dict_lookup (lit "checks") obj = Some (PList checks) /\
    length checks = 3 /\
    Forall (fun c => exists d, c = PDict d /\
                     dict_keys d = [lit "name"; lit "value"; lit "ok"])
      checks.
Proof.
  eexists _, _, _. split; [apply main_json|].
  split.
  { rewrite loads_dumps by (by constructor). apply f_equal.
    apply decoded_ok_result. }
  split; [reflexivity|]. split; [reflexivity|]. split; [reflexivity|].
  split; [reflexivity|].
  repeat (apply List.Forall_cons; [eexists; split; reflexivity|]).
  apply List.Forall_nil.
Qed.

(** C8: [verbose] changes nothing in what [check_health] returns nor in what
    the human-readable mode prints. *)
Theorem verbose_only_affects_json (w : World) (result : dict) :
  check_health true w = check_health false w /\
  main (mkNamespace true false) w = main (mkNamespace false false) w /\
  render (mkNamespace true false) result w
    = render (mkNamespace false false) result w.
Proof.
  split; [by rewrite !check_health_eq|].
  split; [by rewrite !main_eq|reflexivity].
Qed.

(** C9: [check_health] leaves the world as it found it, and what it returns
    depends on [CHECK_MODE] and on the clock only. *)
Theorem check_health_reads_check_mode_only
    (verbose1 verbose2 : bool) (w1 w2 : World) :
  environ w1 !! lit "CHECK_MODE" = environ w2 !! lit "CHECK_MODE" ->
  utcnow_isoformat w1 = utcnow_isoformat w2 ->
  snd (check_health verbose1 w1) = w1 /\
  snd (check_health verbose2 w2) = w2 /\
  fst (check_health verbose1 w1) = fst (check_health verbose2 w2).
Proof.
  intros Henv Hclock. rewrite !check_health_eq. simpl.
  unfold check_mode_of. by rewrite Henv, Hclock.
Qed.

Lemma check_health_reads_check_mode_only_witness :
  snd (check_health true sample_world) = sample_world /\
  snd (check_health false other_world) = other_world /\
  fst (check_health true sample_world) = fst (check_health false other_world).
Proof.
  apply (check_health_reads_check_mode_only true false sample_world
           other_world).
  - vm_compute. reflexivity.
  - reflexivity.
Defined.

(** C10: the result has three checks, "Environment", "CPU Usage" and
    "External API" in this order, with values [CHECK_MODE] (or "default"),
    "Normal" and "Reachable", each with [ok = True] and without a severity
    key; and the warning and critical counts add up to the number of failing
    checks. *)
Theorem checks_list_fixed (verbose : bool) (w : World) (checks : list pyval) :
  Forall has_ok_flag checks ->
  (exists code result,
     fst (check_health verbose w) = Return (code, result) /\
     dict_lookup (lit "checks") result =
       Some (PList [ PDict [ (lit "name", PStr (lit "Environment"));
                             (lit "value", PStr (check_mode_of w));
                             (lit "ok", PBool true) ];
                     PDict [ (lit "name", PStr (lit "CPU Usage"));
                             (lit "value", PStr (lit "Normal"));
                             (lit "ok", PBool true) ];
                     PDict [ (lit "name", PStr (lit "External API"));
                             (lit "value", PStr (lit "Reachable"));
                             (lit "ok", PBool true) ] ]) /\
     failed_checks_of
       [environment_check (check_mode_of w); cpu_check; api_check]
       = Return []) /\
  (exists failed warning_count critical_count,
     failed_checks_of checks = Return failed /\
     (forall c, c ∈ failed <-> c ∈ checks /\ failing c) /\
     warning_count_of failed = Return warning_count /\
     critical_count_of failed = Return critical_count /\
     (warning_count + critical_count)%Z = len failed).
Proof.
  intros Hwf. split.
  - exists 0%Z, (ok_result (utcnow_isoformat w) (check_mode_of w)).
    by rewrite check_health_eq.
  - destruct (failed_checks_of_spec checks Hwf) as (failed & Hf & Hin).
    destruct (counts_partition failed) as (wc & cc & Hw & Hc & Hsum & _).
    { by eapply failed_checks_of_dicts. }
    by exists failed, wc, cc.
Qed.

Lemma checks_list_fixed_witness :
  (exists code result,
     fst (check_health false sample_world) = Return (code, result) /\
     dict_lookup (lit "checks") result =
       Some (PList [ PDict [ (lit "name", PStr (lit "Environment"));
                             (lit "value", PStr (check_mode_of sample_world));
                             (lit "ok", PBool true) ];
                     PDict [ (lit "name", PStr (lit "CPU Usage"));
                             (lit "value", PStr (lit "Normal"));
                             (lit "ok", PBool true) ];
                     PDict [ (lit "name", PStr (lit "External API"));
                             (lit "value", PStr (lit "Reachable"));
                             (lit "ok", PBool true) ] ]) /\
     failed_checks_of
       [environment_check (check_mode_of sample_world); cpu_check; api_check]
       = Return []) /\
  (exists failed warning_count critical_count,
     failed_checks_of sample_checks = Return failed /\
     (forall c, c ∈ failed <-> c ∈ sample_checks /\ failing c) /\
     warning_count_of failed = Return warning_count /\
     critical_count_of failed = Return critical_count /\
     (warning_count + critical_count)%Z = len failed).
Proof.
  apply (checks_list_fixed false sample_world sample_checks).
  exact sample_checks_flags.
Defined.

(** * Further properties *)

(** ** The overall status, whatever the type of [ok] *)

Lemma fails_critically_fails c : fails_critically c -> fails c.
Proof. intros (d & v & -> & Hok & Hv & _). by exists d, v. Qed.

Lemma failed_checks_of_general checks :
  Forall has_ok_key checks ->
  exists failed,
    failed_checks_of checks = Return failed /\
    forall c, c ∈ failed <-> c ∈ checks /\ fails c.
Proof.
  induction 1 as [|c checks (d & v & -> & Hok) _ (failed & Hf & Hin)].
  - exists []. split; [done|]. intros c. rewrite !elem_of_nil. tauto.
  - rewrite failed_checks_of_cons. simpl. unfold dict_getitem.
    rewrite Hok. simpl. rewrite Hf. simpl.
    destruct (truthy v) eqn:Hv.
    + exists failed. split; [done|]. intros c. rewrite Hin, elem_of_cons.
      split; [tauto|]. intros [[->|?] Hc]; [|done].
      destruct Hc as (d' & v' & [= <-] & Hd' & Hv'). congruence.
    + exists (PDict d :: failed). split; [done|]. intros c.
      rewrite !elem_of_cons, Hin. split.
      * intros [->|[? ?]]; [|tauto]. split; [by left|by exists d, v].
      * intros [[->|?] ?]; tauto.
Qed.

Lemma critical_count_general failed cc :
  Forall fails failed ->
  critical_count_of failed = Return cc ->
  (0 < cc)%Z <-> Exists fails_critically failed.
Proof.
  intros Hall. revert cc.
  induction Hall as [|c failed (d & v & -> & Hok & Hv) Hall IH]; intros cc Hcc.
  - injection Hcc as <-. rewrite Exists_nil. done.
  - rewrite critical_count_of_cons in Hcc. simpl in Hcc.
    destruct (critical_count_of failed) as [n| | |] eqn:En; simpl in Hcc;
      try discriminate.
    injection Hcc as <-. specialize (IH _ eq_refl).
    pose proof (critical_count_nonneg _ _ En) as Hn.
    rewrite Exists_cons.
    destruct (eq_str _ _) eqn:E.
    + apply eq_str_severity in E. split; [|lia].
      intros _. left. by exists d, v.
    + rewrite IH. split; [tauto|].
      intros [(d' & v' & [= <-] & _ & _ & Hsev)|?]; [|done].
      apply eq_str_severity in Hsev. congruence.
Qed.

Lemma warning_count_general failed wc :
  Forall fails failed ->
  warning_count_of failed = Return wc ->
  (0 < wc)%Z <-> Exists (fun c => ~ fails_critically c) failed.
Proof.
  intros Hall. revert wc.
  induction Hall as [|c failed (d & v & -> & Hok & Hv) Hall IH]; intros wc Hwc.
  - injection Hwc as <-. rewrite Exists_nil. done.
  - rewrite warning_count_of_cons in Hwc. simpl in Hwc.
    destruct (warning_count_of failed) as [n| | |] eqn:En; simpl in Hwc;
      try discriminate.
    injection Hwc as <-. specialize (IH _ eq_refl).
    pose proof (warning_count_nonneg _ _ En) as Hn.
    rewrite Exists_cons.
    destruct (eq_str _ _) eqn:E; simpl.
    + apply eq_str_severity in E. rewrite IH. split; [tauto|].
      intros [Hnc|?]; [|done]. exfalso. apply Hnc. by exists d, v.
    + split; [|lia]. intros _. left.
      intros (d' & v' & [= <-] & _ & _ & Hsev).
      apply eq_str_severity in Hsev. congruence.
Qed.

Lemma decided_unique checks code status code' status' :
  decided checks code status -> decided checks code' status' ->
  code = code' /\ status = status'.
Proof.
  assert (Exists fails_critically checks -> Exists fails checks) as Hsub.
  { intros Hc. eapply Exists_impl; [exact Hc|]. apply fails_critically_fails. }
  unfold decided.
  intros [(? & -> & ->)|[(? & ? & -> & ->)|(? & -> & ->)]]
         [(? & -> & ->)|[(? & ? & -> & ->)|(? & -> & ->)]];
    first [done | exfalso; tauto].
Qed.

Lemma ok_lookup_error_none c : ok_lookup_error c = None <-> has_ok_key c.
Proof.
  unfold ok_lookup_error, has_ok_key. split.
  - destruct c as [| | | |d]; try discriminate.
    destruct (dict_lookup (lit "ok") d) as [v|] eqn:E; [|discriminate].
    intros _. by exists d, v.
  - intros (d & v & -> & ->). done.
Qed.

Lemma getitem_ok_error c e :
  ok_lookup_error c = Some e -> getitem c (lit "ok") = Raise e.
Proof.
  unfold ok_lookup_error, getitem, dict_getitem.
  destruct c as [| | | |d]; try (by intros [= <-]).
  destruct (dict_lookup (lit "ok") d); [discriminate|]. by intros [= <-].
Qed.

Lemma failed_checks_of_first_error pre c post e :
  Forall has_ok_key pre -> ok_lookup_error c = Some e ->
  failed_checks_of (pre ++ c :: post) = Raise e.
Proof.
  intros Hpre He. induction Hpre as [|x pre (d & v & -> & Hok) _ IH].
  - cbn [app]. rewrite failed_checks_of_cons, (getitem_ok_error _ _ He). done.
  - cbn [app]. rewrite failed_checks_of_cons. simpl. unfold dict_getitem.
    rewrite Hok. simpl. by rewrite IH.
Qed.

(** Either every entry has an [ok] field or there is a first one whose
    [c["ok"]] raises. *)
Lemma first_ok_error items :
  Forall has_ok_key items \/
  exists pre c post e,
    items = pre ++ c :: post /\ Forall has_ok_key pre /\
    ok_lookup_error c = Some e.
Proof.
  induction items as [|c items IH]; [by left|].
  destruct (ok_lookup_error c) as [e|] eqn:E.
  - right. exists [], c, items, e. by repeat split.
  - apply ok_lookup_error_none in E.
    destruct IH as [Hall|(pre & c' & post & e & -> & Hpre & He)].
    + left. by constructor.
    + right. exists (c :: pre), c', post, e. repeat split; [|done].
      by constructor.
Qed.

Lemma determine_overall_status_iterated result items :
  iterated result = Return items ->
  determine_overall_status result =
    (failed_checks ← failed_checks_of items;
     warning_count ← warning_count_of failed_checks;
     critical_count ← critical_count_of failed_checks;
     if (critical_count >? 0)%Z
     then Return (2%Z, dict_setitem result (lit "status") (PStr (lit "CRITICAL")))
     else if (warning_count >? 0)%Z
     then Return (1%Z, dict_setitem result (lit "status") (PStr (lit "WARNING")))
     else Return (0%Z, dict_setitem result (lit "status") (PStr (lit "OK")))).
Proof.
  unfold iterated, determine_overall_status.
  destruct (dict_getitem result (lit "checks")) as [v| | |]; simpl;
    try discriminate.
  destruct (py_iter v) as [l| | |]; simpl; try discriminate.
  by intros [= ->].
Qed.

Lemma iterated_list result checks :
  dict_lookup (lit "checks") result = Some (PList checks) ->
  iterated result = Return checks.
Proof. intros H. unfold iterated, dict_getitem. by rewrite H. Qed.

Lemma determine_overall_status_decided result items :
  iterated result = Return items ->
  Forall has_ok_key items ->
  exists code status,
    determine_overall_status result =
      Return (code, dict_setitem result (lit "status") (PStr status)) /\
    decided items code status.
Proof.
  intros Hit Hwf.
  destruct (failed_checks_of_general items Hwf) as (failed & Hf & Hin).
  assert (Forall fails failed) as Hfailing.
  { apply Forall_forall. intros c Hc. by apply Hin. }
  destruct (counts_partition failed) as (wc & cc & Hw & Hc & Hsum & Hwc & Hcc).
  { by eapply failed_checks_of_dicts. }
  pose proof (critical_count_general _ _ Hfailing Hc) as Hcpos.
  pose proof (warning_count_general _ _ Hfailing Hw) as Hwpos.
  assert (Exists fails_critically failed <-> Exists fails_critically items)
    as Hcrit.
  { rewrite !Exists_exists. split; intros (c & Hc' & Hcf); exists c.
    - split; [by apply Hin|done].
    - split; [|done]. apply Hin. split; [done|].
      by apply fails_critically_fails. }
  rewrite (determine_overall_status_iterated _ _ Hit).
  rewrite Hf. simpl. rewrite Hw. simpl. rewrite Hc. simpl.
  unfold decided.
  destruct (Z.gtb_spec cc 0) as [Hpos|Hnpos].
  - exists 2%Z, (lit "CRITICAL"). split; [done|]. left.
    split; [|done]. apply Hcrit, Hcpos. lia.
  - assert (~ Exists fails_critically items) as Hnocrit.
    { rewrite <- Hcrit, <- Hcpos. lia. }
    destruct (Z.gtb_spec wc 0) as [Hwpos'|Hwnpos].
    + exists 1%Z, (lit "WARNING"). split; [done|]. right. left.
      split; [done|]. split; [|done].
      assert (Exists (fun c => ~ fails_critically c) failed) as Hex.
      { apply Hwpos. lia. }
      apply Exists_exists in Hex as (c & Hc' & _).
      apply Exists_exists. exists c. by apply Hin.
    + exists 0%Z, (lit "OK"). split; [done|]. right. right.
      split; [|done]. intros Hex.
      apply Exists_exists in Hex as (c & Hc' & Hcf).
      assert (c ∈ failed) as Hcin by (by apply Hin).
      assert (length failed = 0%nat) as Hlen by (unfold len in Hsum; lia).
      destruct failed; [by apply elem_of_nil in Hcin|discriminate].
Qed.

Lemma determine_overall_status_raises result pre c post e :
  iterated result = Return (pre ++ c :: post) ->
  Forall has_ok_key pre -> ok_lookup_error c = Some e ->
  determine_overall_status result = Raise e.
Proof.
  intros Hit Hpre He.
  rewrite (determine_overall_status_iterated _ _ Hit).
  by rewrite (failed_checks_of_first_error _ _ _ _ Hpre He).
Qed.

Lemma iterated_not_returned result :
  (forall items, iterated result <> Return items) ->
  forall r, determine_overall_status result <> Return r.
Proof.
  intros Hno r. unfold iterated, determine_overall_status in *.
  destruct (dict_getitem result (lit "checks")) as [v| | |]; simpl in *;
    try discriminate.
  destruct (py_iter v) as [items| | |]; simpl in *; try discriminate.
  by destruct (Hno items).
Qed.

(** A run that returns went through entries that all have [ok]. *)
Lemma determine_overall_status_returned result code result' :
  determine_overall_status result = Return (code, result') ->
  exists items status,
    iterated result = Return items /\ Forall has_ok_key items /\
    result' = dict_setitem result (lit "status") (PStr status) /\
    decided items code status.
Proof.
  intros Hrun.
  destruct (iterated result) as [items| | |] eqn:Hit;
    try (by destruct (iterated_not_returned result
                        ltac:(rewrite Hit; discriminate) _ Hrun)).
  destruct (first_ok_error items)
    as [Hall|(pre & c & post & e & -> & Hpre & He)].
  - destruct (determine_overall_status_decided _ _ Hit Hall)
      as (code' & status & Hrun' & Hd).
    rewrite Hrun in Hrun'. injection Hrun' as -> ->.
    by exists items, status.
  - rewrite (determine_overall_status_raises _ _ _ _ _ Hit Hpre He) in Hrun.
    discriminate.
Qed.

Lemma dict_setitem_setitem (d : dict) k v v' :
  dict_setitem (dict_setitem d k v) k v' = dict_setitem d k v'.
Proof.
  induction d as [|[k0 v0] d IH]; simpl.
  - by rewrite str_eqb_refl.
  - destruct (str_eqb k k0) eqn:E; simpl; rewrite E; [done|]. by rewrite IH.
Qed.

Lemma str_eqb_neq a b : a <> b -> str_eqb a b = false.
Proof.
  intros Hne. destruct (str_eqb a b) eqn:E; [|done].
  by apply str_eqb_eq in E.
Qed.

Lemma iterated_setitem_status result v :
  iterated (dict_setitem result (lit "status") v) = iterated result.
Proof.
  unfold iterated, dict_getitem. by rewrite dict_lookup_setitem_ne.
Qed.

Lemma dict_keys_setitem (d : dict) k v :
  dict_keys (dict_setitem d k v) =
  if decide (k ∈ dict_keys d) then dict_keys d else dict_keys d ++ [k].
Proof.
  unfold dict_keys. induction d as [|[k0 v0] d IH].
  - case_decide as Hin; [by apply elem_of_nil in Hin|done].
  - cbn [dict_setitem]. destruct (str_eqb k k0) eqn:E.
    + apply str_eqb_eq in E. subst. simpl. clear IH.
      case_decide as Hin; [done|]. exfalso. apply Hin. by left.
    + assert (k <> k0) as Hne.
      { intros ->. by rewrite str_eqb_refl in E. }
      simpl. rewrite IH.
      repeat case_decide; try done; exfalso;
        match goal with
        | H : _ ∈ _ :: _ |- _ => apply elem_of_cons in H; tauto
        | H : ~ _ ∈ _ :: _ |- _ => apply H; by right
        end.
Qed.

Lemma Exists_perm {A} (P : A -> Prop) (l1 l2 : list A) :
  l1 ≡ₚ l2 -> Exists P l1 -> Exists P l2.
Proof.
  intros Hperm. rewrite !Exists_exists. intros (x & Hx & HP).
  exists x. split; [|done].
  apply list_elem_of_In. apply list_elem_of_In in Hx.
  by apply (Permutation_in _ Hperm).
Qed.

Lemma Forall_perm {A} (P : A -> Prop) (l1 l2 : list A) :
  l1 ≡ₚ l2 -> Forall P l1 -> Forall P l2.
Proof.
  intros Hperm. rewrite !Forall_forall. intros H x Hx. apply H.
  apply list_elem_of_In. apply list_elem_of_In in Hx.
  by apply (Permutation_in _ (Permutation_sym Hperm)).
Qed.

Lemma decided_perm l1 l2 code status :
  l1 ≡ₚ l2 -> decided l1 code status -> decided l2 code status.
Proof.
  intros Hperm. pose proof (Permutation_sym Hperm) as Hsym.
  pose proof (Exists_perm fails_critically _ _ Hperm).
  pose proof (Exists_perm fails_critically _ _ Hsym).
  pose proof (Exists_perm fails _ _ Hperm).
  pose proof (Exists_perm fails _ _ Hsym).
  unfold decided. tauto.
Qed.

Lemma checks_append_returned result x r1 :
  checks_append result x = Return r1 ->
  exists l, dict_lookup (lit "checks") result = Some (PList l) /\
            r1 = dict_setitem result (lit "checks") (PList (l ++ [x])).
Proof.
  unfold checks_append, dict_getitem.
  destruct (dict_lookup (lit "checks") result) as [[| | |l|]|]; simpl;
    try discriminate.
  intros [= <-]. by exists l.
Qed.

Lemma loose_checks_ok : Forall has_ok_key loose_checks.
Proof.
  repeat (apply List.Forall_cons; [eexists _, _; split; reflexivity|]).
  apply List.Forall_nil.
Defined.

(** X1: lines 57-70 judge [ok] by its truth value, not by its type: with
    every entry a dict that has [ok], the code and the status are 2 and
    CRITICAL when some entry has a false [ok] ([False], [None], an empty
    string, list or dict) and [severity = "critical"], else 1 and WARNING
    when some entry has a false [ok], else 0 and OK. *)
Theorem overall_status_by_truthiness (result : dict) (checks : list pyval) :
  dict_lookup (lit "checks") result = Some (PList checks) ->
  Forall has_ok_key checks ->
  exists code status,
    determine_overall_status result =
      Return (code, dict_setitem result (lit "status") (PStr status)) /\
    ((Exists fails_critically checks /\ code = 2%Z /\ status = lit "CRITICAL") \/
     (~ Exists fails_critically checks /\ Exists fails checks /\
      code = 1%Z /\ status = lit "WARNING") \/
     (~ Exists fails checks /\ code = 0%Z /\ status = lit "OK")).
Proof.
  intros Hc Hwf.
  exact (determine_overall_status_decided _ _ (iterated_list _ _ Hc) Hwf).
Qed.

Lemma overall_status_by_truthiness_witness :
  exists code status,
    determine_overall_status loose_result =
      Return (code, dict_setitem loose_result (lit "status") (PStr status)) /\
    ((Exists fails_critically loose_checks /\ code = 2%Z
      /\ status = lit "CRITICAL") \/
     (~ Exists fails_critically loose_checks /\ Exists fails loose_checks /\
      code = 1%Z /\ status = lit "WARNING") \/
     (~ Exists fails loose_checks /\ code = 0%Z /\ status = lit "OK")).
Proof.
  apply (overall_status_by_truthiness loose_result loose_checks).
  - reflexivity.
  - exact loose_checks_ok.
Defined.

(** X2: the first entry that cannot give its [ok] ends lines 57-70: it
    raises [KeyError('ok')] when the entry is a dict without that key and
    [TypeError] when it is no dict, whatever comes after it. *)
Theorem first_entry_without_ok_raises
    (result : dict) (pre post : list pyval) (c : pyval) (e : exception) :
  dict_lookup (lit "checks") result = Some (PList (pre ++ c :: post)) ->
  Forall has_ok_key pre ->
  ok_lookup_error c = Some e ->
  determine_overall_status result = Raise e /\
  (e = TypeError \/ e = KeyError (lit "ok")).
Proof.
  intros Hc Hpre He. split.
  - exact (determine_overall_status_raises _ _ _ _ _
             (iterated_list _ _ Hc) Hpre He).
  - unfold ok_lookup_error in He.
    destruct c as [| | | |d]; try (injection He as <-; by left).
    destruct (dict_lookup (lit "ok") d); [discriminate|].
    injection He as <-. by right.
Qed.

Lemma first_entry_without_ok_raises_witness :
  determine_overall_status
    [ (lit "checks", PList (sample_checks ++ PStr (lit "disk") :: [])) ]
    = Raise TypeError /\
  (TypeError = TypeError \/ TypeError = KeyError (lit "ok")).
Proof.
  apply (first_entry_without_ok_raises _ sample_checks [] (PStr (lit "disk"))).
  - reflexivity.
  - repeat (apply List.Forall_cons; [eexists _, _; split; reflexivity|]).
    apply List.Forall_nil.
  - reflexivity.
Defined.

(** X3: lines 57-70 end in one of six ways: code 0 with OK, 1 with WARNING,
    2 with CRITICAL stored under [status], or [KeyError('checks')],
    [KeyError('ok')], [TypeError].  They never leave another code, another
    status or another exception. *)
Theorem determine_overall_status_outcomes (result : dict) :
  (exists code status,
     determine_overall_status result =
       Return (code, dict_setitem result (lit "status") (PStr status)) /\
     ((code = 0%Z /\ status = lit "OK") \/
      (code = 1%Z /\ status = lit "WARNING") \/
      (code = 2%Z /\ status = lit "CRITICAL"))) \/
  determine_overall_status result = Raise (KeyError (lit "checks")) \/
  determine_overall_status result = Raise (KeyError (lit "ok")) \/
  determine_overall_status result = Raise TypeError.
Proof.
  destruct (iterated result) as [items| | |] eqn:Hit.
  - destruct (first_ok_error items)
      as [Hall|(pre & c & post & e & -> & Hpre & He)].
    + left.
      destruct (determine_overall_status_decided _ _ Hit Hall)
        as (code & status & Hrun & Hd).
      exists code, status. split; [done|]. unfold decided in Hd. tauto.
    + right. right.
      rewrite (determine_overall_status_raises _ _ _ _ _ Hit Hpre He).
      unfold ok_lookup_error in He.
      destruct c as [| | | |d]; try (injection He as <-; by right).
      destruct (dict_lookup (lit "ok") d); [discriminate|].
      injection He as <-. by left.
  - right. unfold iterated, determine_overall_status, dict_getitem in *.
    destruct (dict_lookup (lit "checks") result) as [v|]; simpl in *.
    + destruct v; simpl in *; try discriminate; injection Hit as <-; tauto.
    + injection Hit as <-. tauto.
  - exfalso. unfold iterated, dict_getitem in Hit.
    destruct (dict_lookup (lit "checks") result) as [[]|]; discriminate.
  - exfalso. unfold iterated, dict_getitem in Hit.
    destruct (dict_lookup (lit "checks") result) as [[]|]; discriminate.
Qed.

(** X4: lines 57-70 write [status] and nothing else, and do not read it: a
    second run on the result gives the same code and the same result, the
    status that was stored before does not matter, every other key keeps its
    value, and the keys keep their order ([status] goes last when it was
    missing). *)
Theorem determine_overall_status_idempotent
    (result result' : dict) (code : Z) (old : pyval) :
  determine_overall_status result = Return (code, result') ->
  determine_overall_status result' = Return (code, result') /\
  determine_overall_status (dict_setitem result (lit "status") old)
    = Return (code, result') /\
  (forall k, k <> lit "status" ->
             dict_lookup k result' = dict_lookup k result) /\
  dict_keys result' =
    if decide (lit "status" ∈ dict_keys result) then dict_keys result
    else dict_keys result ++ [lit "status"].
Proof.
  intros Hrun.
  destruct (determine_overall_status_returned _ _ _ Hrun)
    as (items & status & Hit & Hall & -> & Hd).
  assert (forall v,
            determine_overall_status (dict_setitem result (lit "status") v)
            = Return (code, dict_setitem result (lit "status") (PStr status)))
    as Hany.
  { intros v.
    destruct (determine_overall_status_decided
                (dict_setitem result (lit "status") v) items)
      as (code' & status' & Hrun' & Hd'); [|done|].
    { by rewrite iterated_setitem_status. }
    destruct (decided_unique _ _ _ _ _ Hd Hd') as [<- <-].
    by rewrite dict_setitem_setitem in Hrun'. }
  split; [apply Hany|]. split; [apply Hany|]. split.
  - intros k Hk. apply dict_lookup_setitem_ne. by apply str_eqb_neq.
  - apply dict_keys_setitem.
Qed.

Lemma determine_overall_status_idempotent_witness :
  determine_overall_status sample_result = Return (2%Z, sample_result) /\
  determine_overall_status (dict_setitem sample_result (lit "status") PNone)
    = Return (2%Z, sample_result) /\
  (forall k, k <> lit "status" ->
             dict_lookup k sample_result = dict_lookup k sample_result) /\
  dict_keys sample_result =
    if decide (lit "status" ∈ dict_keys sample_result)
    then dict_keys sample_result
    else dict_keys sample_result ++ [lit "status"].
Proof.
  apply (determine_overall_status_idempotent sample_result sample_result 2%Z).
  reflexivity.
Defined.

(** X5: the code of two lists of checks put together is the larger of
    their codes. *)
Theorem code_of_concatenation
    (r1 r2 r : dict) (l1 l2 : list pyval) (c1 c2 : Z) (r1' r2' : dict) :
  dict_lookup (lit "checks") r1 = Some (PList l1) ->
  dict_lookup (lit "checks") r2 = Some (PList l2) ->
  dict_lookup (lit "checks") r = Some (PList (l1 ++ l2)) ->
  determine_overall_status r1 = Return (c1, r1') ->
  determine_overall_status r2 = Return (c2, r2') ->
  exists r', determine_overall_status r = Return (Z.max c1 c2, r').
Proof.
  intros H1 H2 H Hrun1 Hrun2.
  destruct (determine_overall_status_returned _ _ _ Hrun1)
    as (i1 & s1 & Hit1 & Hall1 & _ & Hd1).
  destruct (determine_overall_status_returned _ _ _ Hrun2)
    as (i2 & s2 & Hit2 & Hall2 & _ & Hd2).
  rewrite (iterated_list _ _ H1) in Hit1. injection Hit1 as <-.
  rewrite (iterated_list _ _ H2) in Hit2. injection Hit2 as <-.
  destruct (determine_overall_status_decided r (l1 ++ l2))
    as (c & s & Hrun & Hd).
  { by apply iterated_list. }
  { apply Forall_app. by split. }
  exists (dict_setitem r (lit "status") (PStr s)). rewrite Hrun.
  do 2 f_equal.
  assert (forall l, Exists fails_critically l -> Exists fails l) as Hsub.
  { intros l Hc. eapply Exists_impl; [exact Hc|]. apply fails_critically_fails. }
  pose proof (Hsub l1). pose proof (Hsub l2).
  unfold decided in *. rewrite !Exists_app in Hd.
  destruct Hd1 as [(? & -> & _)|[(? & ? & -> & _)|(? & -> & _)]];
    destruct Hd2 as [(? & -> & _)|[(? & ? & -> & _)|(? & -> & _)]];
    destruct Hd as [(? & -> & _)|[(? & ? & -> & _)|(? & -> & _)]];
    first [reflexivity | exfalso; tauto].
Qed.

Lemma code_of_concatenation_witness :
  exists r',
    determine_overall_status sample_result = Return (Z.max 0 2, r').
Proof.
  apply (code_of_concatenation head_result tail_result sample_result
           (firstn 1 sample_checks) (skipn 1 sample_checks) 0%Z 2%Z
           (dict_setitem head_result (lit "status") (PStr (lit "OK")))
           (dict_setitem tail_result (lit "status") (PStr (lit "CRITICAL"))));
    reflexivity.
Defined.

(** X6: the order of the checks changes neither the code nor the
    status. *)
Theorem code_ignores_order
    (r1 r2 : dict) (l1 l2 : list pyval) (code : Z) (r1' : dict) :
  dict_lookup (lit "checks") r1 = Some (PList l1) ->
  dict_lookup (lit "checks") r2 = Some (PList l2) ->
  l1 ≡ₚ l2 ->
  determine_overall_status r1 = Return (code, r1') ->
  exists r2', determine_overall_status r2 = Return (code, r2') /\
              status_of r2' = status_of r1'.
Proof.
  intros H1 H2 Hperm Hrun1.
  destruct (determine_overall_status_returned _ _ _ Hrun1)
    as (i1 & s1 & Hit1 & Hall1 & -> & Hd1).
  rewrite (iterated_list _ _ H1) in Hit1. injection Hit1 as <-.
  destruct (determine_overall_status_decided r2 l2)
    as (c & s & Hrun & Hd).
  { by apply iterated_list. }
  { by apply (Forall_perm _ _ _ Hperm). }
  pose proof (decided_perm _ _ _ _ Hperm Hd1) as Hd'.
  destruct (decided_unique _ _ _ _ _ Hd Hd') as [-> ->].
  exists (dict_setitem r2 (lit "status") (PStr s1)). split; [done|].
  unfold status_of. by rewrite !dict_lookup_setitem_eq.
Qed.

Lemma code_ignores_order_witness :
  exists r2',
    determine_overall_status reversed_result = Return (2%Z, r2') /\
    status_of r2' = status_of sample_result.
Proof.
  apply (code_ignores_order sample_result reversed_result sample_checks
           (rev sample_checks) 2%Z sample_result).
  - reflexivity.
  - reflexivity.
  - apply Permutation_rev.
  - reflexivity.
Defined.

(** X7: [result["checks"].append(x)] never lowers the code: a passing [x]
    leaves it, a failing [x] lifts it to 1 at least, a critical one to 2. *)
Theorem appended_check_never_lowers_code
    (result r1 r' : dict) (x : pyval) (code : Z) :
  checks_append result x = Return r1 ->
  determine_overall_status result = Return (code, r') ->
  has_ok_key x ->
  exists code1 r1',
    determine_overall_status r1 = Return (code1, r1') /\
    (code <= code1)%Z /\
    (~ fails x -> code1 = code) /\
    (fails x -> ~ fails_critically x -> code1 = Z.max code 1) /\
    (fails_critically x -> code1 = 2%Z).
Proof.
  intros Happ Hrun Hx.
  destruct (checks_append_returned _ _ _ Happ) as (l & Hl & ->).
  destruct (determine_overall_status_returned _ _ _ Hrun)
    as (items & s & Hit & Hall & _ & Hd).
  rewrite (iterated_list _ _ Hl) in Hit. injection Hit as <-.
  destruct (determine_overall_status_decided
              (dict_setitem result (lit "checks") (PList (l ++ [x])))
              (l ++ [x]))
    as (code1 & s1 & Hrun1 & Hd1).
  { apply iterated_list, dict_lookup_setitem_eq. }
  { apply Forall_app. split; [done|]. by constructor. }
  eexists code1, _. split; [exact Hrun1|].
  assert (Exists fails_critically l -> Exists fails l) as Hsub.
  { intros Hc. eapply Exists_impl; [exact Hc|]. apply fails_critically_fails. }
  pose proof (fails_critically_fails x) as Hsubx.
  unfold decided in *.
  rewrite !Exists_app, !Exists_cons, !Exists_nil in Hd1.
  clear Hrun Hrun1 Happ Hl Hall Hx.
  destruct Hd as [(? & -> & _)|[(? & ? & -> & _)|(? & -> & _)]];
    destruct Hd1 as [(? & -> & _)|[(? & ? & -> & _)|(? & -> & _)]];
    repeat split; intros; first [lia | exfalso; tauto].
Qed.

Lemma appended_check_never_lowers_code_witness :
  exists code1 r1',
    determine_overall_status
      (dict_setitem head_result (lit "checks")
         (PList (firstn 1 sample_checks ++ [nameless_check])))
      = Return (code1, r1') /\
    (0 <= code1)%Z /\
    (~ fails nameless_check -> code1 = 0%Z) /\
    (fails nameless_check -> ~ fails_critically nameless_check ->
     code1 = Z.max 0 1) /\
    (fails_critically nameless_check -> code1 = 2%Z).
Proof.
  apply (appended_check_never_lowers_code head_result _
           (dict_setitem head_result (lit "status") (PStr (lit "OK")))
           nameless_check 0%Z).
  - reflexivity.
  - reflexivity.
  - eexists _, _. split; reflexivity.
Defined.

(** ** The report of any result *)

Lemma renders_truthy_has_ok check line :
  renders_truthy check line -> has_ok_key check.
Proof.
  intros (d & name & value & ok & -> & _ & _ & Hok & _). by exists d, ok.
Qed.

Lemma renders_truthy_all_ok checks lines :
  Forall2 renders_truthy checks lines -> Forall has_ok_key checks.
Proof.
  induction 1 as [|c line cs ls Hc _ IH]; constructor; [|done].
  by eapply renders_truthy_has_ok.
Qed.

Lemma check_marked_line name value b :
  check_marked (check_line name value b) <-> b = true.
Proof.
  split; [|intros ->; by exists name, value].
  intros (name' & value' & H). destruct b; [done|].
  apply (f_equal (fun l => nth 2 l 0%N)) in H. vm_compute in H.
  discriminate.
Qed.

Lemma renders_truthy_marked check line :
  renders_truthy check line -> check_marked line <-> ~ fails check.
Proof.
  intros (d & name & value & ok & -> & _ & _ & Hok & ->).
  rewrite check_marked_line. split.
  - intros Ht (d' & v' & [= <-] & Hok' & Hv'). congruence.
  - intros Hnf. destruct (truthy ok) eqn:E; [done|].
    exfalso. apply Hnf. by exists d, ok.
Qed.

Lemma all_marked_none_fails checks lines :
  Forall2 renders_truthy checks lines ->
  Forall check_marked lines <-> ~ Exists fails checks.
Proof.
  induction 1 as [|c line cs ls Hc _ IH].
  - split; [intros _ H; by apply Exists_nil in H|constructor].
  - rewrite List.Forall_cons_iff, Exists_cons, IH,
      (renders_truthy_marked _ _ Hc). tauto.
Qed.

Lemma loose_checks_render : Forall2 renders_truthy loose_checks loose_lines.
Proof.
  repeat (apply List.Forall2_cons;
          [eexists _, _, _, _; repeat split; reflexivity|]).
  apply List.Forall2_nil.
Defined.

Lemma loose_lines_encode : Forall (encodes sample_world) loose_lines.
Proof.
  repeat (apply List.Forall_cons; [reflexivity|]). apply List.Forall_nil.
Defined.

Lemma decided_status_encodes checks code status w :
  decided checks code status -> encodes w status.
Proof.
  intros [(_ & _ & ->)|[(_ & _ & _ & ->)|(_ & _ & ->)]];
    by apply literal_encodes.
Qed.

(** X8: without [--json], the first entry whose line cannot be built (a
    field is missing) or that the standard output does not take ends the
    report with its exception: the status line and the lines of the entries
    before it are printed, where the output takes them, and no part of its
    own line is. *)
Theorem human_mode_stops_at_first_error
    (v : bool) (result : dict) (status : pystr) (pre post : list pyval)
    (c : pyval) (lines : list pystr) (e : exception) (w : World) :
  dict_lookup (lit "status") result = Some (PStr status) ->
  dict_lookup (lit "checks") result = Some (PList (pre ++ c :: post)) ->
  Forall2 renders_as pre lines ->
  encodes w status -> Forall (encodes w) lines ->
  fst (print_check c w) = Raise e ->
  render (mkNamespace v false) result w =
    (Raise e,
     with_output w (unlines ((lit "Status: " ++ status) :: lines))).
Proof.
  intros Hs Hc Hpre Hes Hel He.
  apply (render_human_stops v result status pre c post lines (Raise e) w);
    try done.
  eapply Forall2_impl; [exact Hpre|]. apply renders_as_truthy.
Qed.

Lemma human_mode_stops_at_first_error_witness :
  render (mkNamespace false false) nameless_result sample_world =
    (Raise (KeyError (lit "name")),
     with_output sample_world
       (unlines ((lit "Status: " ++ lit "WARNING") :: firstn 1 sample_lines))).
Proof.
  apply (human_mode_stops_at_first_error false nameless_result (lit "WARNING")
           (firstn 1 sample_checks) (skipn 2 sample_checks) nameless_check
           (firstn 1 sample_lines) (KeyError (lit "name")) sample_world).
  - reflexivity.
  - reflexivity.
  - apply List.Forall2_cons; [|apply List.Forall2_nil].
    eexists _, _, _, true. repeat split; reflexivity.
  - reflexivity.
  - apply List.Forall_cons; [reflexivity|apply List.Forall_nil].
  - reflexivity.
Defined.

(** X9: on entries with text [name] and [value] and an [ok] of any type,
    and a standard output that takes their lines, the report printed
    without [--json] agrees with the code: the status line is OK exactly
    when the code is 0, and the code is 0 exactly when every line carries
    the check mark. *)
Theorem human_report_agrees_with_code
    (v : bool) (result : dict) (checks : list pyval) (lines : list pystr)
    (w : World) :
  dict_lookup (lit "checks") result = Some (PList checks) ->
  Forall2 renders_truthy checks lines ->
  Forall (encodes w) lines ->
  exists code status result',
    determine_overall_status result = Return (code, result') /\
    render (mkNamespace v false) result' w =
      (Return tt,
       with_output w (unlines ((lit "Status: " ++ status) :: lines))) /\
    (code = 0%Z <-> status = lit "OK") /\
    (code = 0%Z <-> Forall check_marked lines).
Proof.
  intros Hc Hl Hel.
  destruct (determine_overall_status_decided result checks)
    as (code & status & Hrun & Hd).
  { by apply iterated_list. }
  { by eapply renders_truthy_all_ok. }
  exists code, status, (dict_setitem result (lit "status") (PStr status)).
  split; [done|]. split.
  { apply (render_human_truthy v _ status checks lines w); try done.
    - apply dict_lookup_setitem_eq.
    - by rewrite dict_lookup_setitem_ne.
    - by eapply decided_status_encodes. }
  rewrite (all_marked_none_fails _ _ Hl).
  assert (Exists fails_critically checks -> Exists fails checks) as Hsub.
  { intros H. eapply Exists_impl; [exact H|]. apply fails_critically_fails. }
  unfold decided in Hd.
  destruct Hd as [(? & -> & ->)|[(? & ? & -> & ->)|(? & -> & ->)]];
    split; split; intros; first [done | exfalso; tauto].
Qed.

Lemma human_report_agrees_with_code_witness :
  exists code status result',
    determine_overall_status loose_result = Return (code, result') /\
    render (mkNamespace false false) result' sample_world =
      (Return tt,
       with_output sample_world
         (unlines ((lit "Status: " ++ status) :: loose_lines))) /\
    (code = 0%Z <-> status = lit "OK") /\
    (code = 0%Z <-> Forall check_marked loose_lines).
Proof.
  apply (human_report_agrees_with_code false loose_result loose_checks
           loose_lines sample_world).
  - reflexivity.
  - exact loose_checks_render.
  - exact loose_lines_encode.
Defined.

(** ** The JSON text of any result *)

Lemma dict_setitem_fresh (d : dict) k v :
  k ∉ dict_keys d -> dict_setitem d k v = d ++ [(k, v)].
Proof.
  unfold dict_keys. induction d as [|[k0 v0] d IH]; intros Hk; [done|].
  simpl in *. rewrite not_elem_of_cons in Hk. destruct Hk as [Hne Hk].
  rewrite (str_eqb_neq _ _ Hne), IH by done. done.
Qed.

Lemma fold_setitem_fresh (pairs acc : dict) :
  NoDup (dict_keys (acc ++ pairs)) ->
  fold_left (fun d kv => dict_setitem d (fst kv) (snd kv)) pairs acc
  = acc ++ pairs.
Proof.
  revert acc. induction pairs as [|[k v] pairs IH]; intros acc Hnd.
  - by rewrite app_nil_r.
  - cbn [fold_left fst snd].
    replace (acc ++ (k, v) :: pairs) with ((acc ++ [(k, v)]) ++ pairs) in *
      by (by rewrite <- app_assoc).
    rewrite dict_setitem_fresh.
    + by apply IH.
    + unfold dict_keys in *. rewrite !map_app in Hnd.
      apply NoDup_app in Hnd as [Hnd _].
      apply NoDup_app in Hnd as (_ & Hdisj & _).
      intros Hin. apply (Hdisj _ Hin). simpl. by left.
Qed.

Lemma dict_of_pairs_nodup (d : dict) :
  NoDup (dict_keys d) -> Json.dict_of_pairs d = d.
Proof. intros H. unfold Json.dict_of_pairs. by rewrite fold_setitem_fresh. Qed.

Lemma well_formed_list l :
  fold_right (fun x acc => well_formed x /\ acc) True l <->
  Forall well_formed l.
Proof.
  induction l as [|x l IH]; simpl.
  - split; [constructor|done].
  - rewrite List.Forall_cons_iff, IH. done.
Qed.

Lemma well_formed_members (d : dict) :
  fold_right (fun kv acc =>
                well_formed_text (fst kv) /\ well_formed (snd kv) /\ acc)
    True d <->
  Forall (fun kv => well_formed_text (fst kv) /\ well_formed (snd kv)) d.
Proof.
  induction d as [|kv d IH]; simpl.
  - split; [constructor|done].
  - rewrite List.Forall_cons_iff, IH. tauto.
Qed.

Lemma decoded_well_formed v : well_formed v -> decoded v = v.
Proof.
  induction v as [|b|s|l IH|d IH] using pyval_nested_ind; intros Hwf;
    try done.
  - simpl in *. by rewrite unescaped_well_formed.
  - cbn [decoded]. cbn [well_formed] in Hwf.
    apply well_formed_list in Hwf. f_equal.
    induction l as [|x l IHl]; [done|].
    apply List.Forall_cons_iff in IH as [Hx IH].
    apply List.Forall_cons_iff in Hwf as [Hwx Hwf].
    cbn [List.map]. by rewrite Hx, IHl.
  - cbn [decoded]. cbn [well_formed] in Hwf. destruct Hwf as [Hnd Hwf].
    apply well_formed_members in Hwf.
    assert (List.map (fun kv => (unescaped (fst kv), decoded (snd kv))) d = d)
      as ->.
    { clear Hnd. induction d as [|[k x] d IHd]; [done|].
      apply List.Forall_cons_iff in IH as [Hx IH].
      apply List.Forall_cons_iff in Hwf as [[Hk Hwx] Hwf].
      cbn [List.map fst snd] in *.
      by rewrite unescaped_well_formed, Hx, IHd. }
    by rewrite dict_of_pairs_nodup.
Qed.

Lemma well_formed_textb_spec s :
  well_formed_textb s = true -> well_formed_text s.
Proof.
  unfold well_formed_textb, well_formed_text. rewrite forallb_forall.
  intros H. apply Forall_forall. intros c Hc.
  apply list_elem_of_In, H, andb_true_iff in Hc as [Hlt Hh].
  apply N.ltb_lt in Hlt. by apply negb_true_iff in Hh.
Qed.

Lemma sample_result_well_formed : well_formed (PDict sample_result).
Proof.
  cbn [well_formed sample_result sample_checks fold_right fst snd].
  repeat split;
    first [ by apply (bool_decide_unpack _)
          | by apply well_formed_textb_spec ].
Defined.

(** X10: with [--json] the text printed for a result that nests within the
    recursion limit, indented or not, holds printable ASCII characters and
    newlines only, so every standard output takes it: [main] with [--json]
    exits with 0 in every world.
    Without [--json] it does so only where the output takes the check mark:
    elsewhere it prints [Status: OK] and ends with [UnicodeEncodeError]. *)
Theorem json_output_is_ascii (v : bool) (result : dict) (w : World) :
  shallow (PDict result) ->
  (exists text,
     render (mkNamespace v true) result w = (Return tt, with_output w text) /\
     Forall plain text) /\
  fst (main (mkNamespace v true) w) = SystemExit 0%Z /\
  (~ encodes w check_mark ->
   main (mkNamespace v false) w =
     (Raise UnicodeEncodeError,
      with_output w (lit "Status: OK" ++ [10%N]))).
Proof.
  intros _. split; [|split].
  - eexists. split; [apply render_json|].
    apply Forall_app. split; [apply iterencode_plain|].
    constructor; [by right|constructor].
  - by rewrite main_json.
  - apply main_human_refused.
Qed.

Lemma json_output_is_ascii_witness :
  (exists text,
     render (mkNamespace true true) sample_result ascii_world
       = (Return tt, with_output ascii_world text) /\
     Forall plain text) /\
  fst (main (mkNamespace true true) ascii_world) = SystemExit 0%Z /\
  main (mkNamespace true false) ascii_world =
    (Raise UnicodeEncodeError,
     with_output ascii_world (lit "Status: OK" ++ [10%N])).
Proof.
  destruct (json_output_is_ascii true sample_result ascii_world
              sample_result_shallow) as (Hjson & Hexit & Hhuman).
  split; [exact Hjson|]. split; [exact Hexit|].
  apply Hhuman. discriminate.
Defined.

(** X11: with [--json], the text printed for a result that nests within
    the recursion limit, whose strings are well-formed text and whose dicts
    have no key twice, decodes to the result itself, indented or not. *)
Theorem well_formed_result_round_trips
    (v : bool) (result : dict) (w : World) :
  shallow (PDict result) ->
  well_formed (PDict result) ->
  exists text,
    render (mkNamespace v true) result w = (Return tt, with_output w text) /\
    Json.loads text = Some (PDict result).
Proof.
  intros _ Hwf. eexists. split; [apply render_json|].
  rewrite loads_dumps by (by constructor).
  by rewrite (decoded_well_formed _ Hwf).
Qed.

Lemma well_formed_result_round_trips_witness :
  exists text,
    render (mkNamespace true true) sample_result sample_world
      = (Return tt, with_output sample_world text) /\
    Json.loads text = Some (PDict sample_result).
Proof.
  apply (well_formed_result_round_trips true sample_result sample_world).
  - exact sample_result_shallow.
  - exact sample_result_well_formed.
Defined.
